(** * DIoD: the registration graph builder and the resolution engine

    A shallow embedding of [src/container.ts] (class [Container]) and of the
    by-class registration [UseClass], together with the build-time graph
    validation that the specification describes. *)

From Stdlib Require Import ZArith String List Lia.
From stdpp Require Import base countable strings list gmap sets relations.

(** ** Identifiers, errors and completions *)

(** Modelled from the spec: the type [Identifier] of the absent module
    [types], a class object (abstract or constructible).  Equality is
    identity of the object, which [ident_ref] stands for; [ident_name] is the
    [name] property read by the error messages.  Two distinct identifiers may
    carry the same name. *)
Record Identifier : Type := MkIdentifier {
  ident_ref : positive;
  ident_name : string
}.

#[global] Instance Identifier_eq_dec : EqDecision Identifier.
Proof. solve_decision. Defined.

#[global] Instance Identifier_countable : Countable Identifier.
Proof.
  apply (inj_countable' (fun i => (ident_ref i, ident_name i))
                        (fun p => MkIdentifier (fst p) (snd p))).
  by intros [].
Defined.

(** Modelled from the spec: the type [Newable] of the absent module [types],
    an identifier that can be constructed with [new]. *)
Definition Newable : Type := Identifier.

(** A JavaScript [Error], observed through its message. *)
Record JsError : Type := MkError { message : string }.

#[global] Instance JsError_eq_dec : EqDecision JsError.
Proof. solve_decision. Defined.

(** Modelled from the spec: the enumeration [RegistrationType] of the absent
    module [registration-type], with the three members the code compares
    [data.type] with. *)
Inductive RegistrationType : Type := TClass | TInstance | TFactory.

#[global] Instance RegistrationType_eq_dec : EqDecision RegistrationType.
Proof. solve_decision. Defined.

(** How a call into host code ends: it returns a value or throws, and in both
    cases leaves a new state of the world behind. *)
Inductive Completion (World A : Type) : Type :=
| Returned (a : A) (w : World)
| Thrown (e : JsError) (w : World).

Arguments Returned {World A} a w.
Arguments Thrown {World A} e w.

(** Modelled from the spec: the type [ServiceData] of the absent module
    [internal-types], the tagged union read by the container, with the
    fields the code reads and writes.  Every variant carries a
    [dependencies] array, since [Container.get] reads [data.dependencies]
    before it looks at [data.type]. *)
Inductive ServiceData (Value FactoryFn : Type) : Type :=
| ClassServiceData (class : Newable) (dependencies : list Identifier)
                   (autowire : bool)
| InstanceServiceData (instance : Value) (dependencies : list Identifier)
| FactoryServiceData (factory : FactoryFn) (dependencies : list Identifier).

Arguments ClassServiceData {Value FactoryFn} class dependencies autowire.
Arguments InstanceServiceData {Value FactoryFn} instance dependencies.
Arguments FactoryServiceData {Value FactoryFn} factory dependencies.

Definition sd_type {Value FactoryFn} (data : ServiceData Value FactoryFn)
  : RegistrationType :=
  match data with
  | ClassServiceData _ _ _ => TClass
  | InstanceServiceData _ _ => TInstance
  | FactoryServiceData _ _ => TFactory
  end.

Definition sd_dependencies {Value FactoryFn}
    (data : ServiceData Value FactoryFn) : list Identifier :=
  match data with
  | ClassServiceData _ dependencies _ => dependencies
  | InstanceServiceData _ dependencies => dependencies
  | FactoryServiceData _ dependencies => dependencies
  end.

(** ** The container (src/container.ts) *)

Module Container.
Section WithHost.

(** The host: JavaScript values, the state constructors and factories may
    read and write, [new cls(...args)] and the call [factory()]. *)
Context {Value World FactoryFn : Type}.
Variable construct : Newable -> list Value -> World -> Completion World Value.
Variable invoke : FactoryFn -> World -> Completion World Value.

(** The class [Container]: its only field is the map [services]. *)
Record t : Type := MkContainer {
  services : gmap Identifier (ServiceData Value FactoryFn)
}.

Definition not_registered (identifier : Identifier) : JsError :=
  MkError (String.append "Service not registered for: "%string
             (ident_name identifier)).

(** [findServiceDataOrThrow]: [inl] is the thrown error. *)
Definition findServiceDataOrThrow (this : t) (identifier : Identifier)
  : JsError + ServiceData Value FactoryFn :=
  match services this !! identifier with
  | None => inl (not_registered identifier)
  | Some service => inr service
  end.

(** The [for ... of] loop of [getDependencies]; [dependencies] is the array
    being filled by [push], [get] the method called on each identifier.
    [None] means that a call did not finish. *)
Fixpoint getDependencies_loop
    (get : Identifier -> World -> option (Completion World Value))
    (dependencyIdentifiers : list Identifier) (dependencies : list Value)
    (w : World) : option (Completion World (list Value)) :=
  match dependencyIdentifiers with
  | [] => Some (Returned dependencies w)
  | dependencyIdentifier :: rest =>
      match get dependencyIdentifier w with
      | Some (Returned v w') =>
          getDependencies_loop get rest (dependencies ++ [v]) w'
      | Some (Thrown e w') => Some (Thrown e w')
      | None => None
      end
  end.

(** The last three statements of [get], run once the dependencies are there. *)
Definition realize (data : ServiceData Value FactoryFn)
    (dependencies : list Value) (w : World) : Completion World Value :=
  match data with
  | ClassServiceData class _ _ => construct class dependencies w
  | InstanceServiceData instance _ => Returned instance w
  | FactoryServiceData factory _ => invoke factory w
  end.

(** [Container.get].  [fuel] bounds the depth of the recursion through
    [getDependencies]; [None] is a recursion deeper than [fuel]. *)
Fixpoint get (fuel : nat) (this : t) (identifier : Identifier) (w : World)
  : option (Completion World Value) :=
  match fuel with
  | O => None
  | S fuel' =>
      match findServiceDataOrThrow this identifier with
      | inl e => Some (Thrown e w)
      | inr data =>
          match getDependencies_loop (get fuel' this)
                  (sd_dependencies data) [] w with
          | Some (Returned dependencies w') =>
              Some (realize data dependencies w')
          | Some (Thrown e w') => Some (Thrown e w')
          | None => None
          end
      end
  end.

Definition getDependencies (fuel : nat) (this : t)
    (dependencyIdentifiers : list Identifier) (w : World)
  : option (Completion World (list Value)) :=
  getDependencies_loop (get fuel this) dependencyIdentifiers [] w.

End WithHost.

Arguments t : clear implicits.
Arguments MkContainer {Value FactoryFn} services.
Arguments services {Value FactoryFn} _.

End Container.

(** ** The by-class registration (class [UseClass]) *)

Module UseClass.

(** The calls made to the module [reflection]. *)
Inductive ProviderCall : Type :=
| CallGetDependencyCount (target : Newable)
| CallGetDependencies (target : Newable).

(** The fields of a [UseClass] object. *)
Record t : Type := MkUseClass {
  newable : Newable;
  dependencies : list Identifier;
  autowire : bool
}.

(** Modelled from the spec: the type [BuildOptions] of the absent module
    [types]; the code reads its field [autowire]. *)
Record BuildOptions : Type := MkBuildOptions { options_autowire : bool }.

(** The constructor, with the two field initialisers. *)
Definition new (newable : Newable) : t :=
  {| newable := newable; dependencies := []; autowire := true |}.

Definition withDependencies (this : t) (dependencies : list Identifier) : t :=
  {| newable := newable this; dependencies := dependencies; autowire := false |}.

Definition missing_dependencies (identifier : Newable) : JsError :=
  MkError (String.append
    "Dependencies must be provided for non autowired services. Service with missing dependencies: "%string
    (ident_name identifier)).

Section WithProvider.

(** The module [reflection] is not among the sources.  Its two functions are
    taken as parameters, after the provider interface of the specification:
    the ordered dependency identifiers of a class and its required parameter
    count. *)
Variable dependenciesOf : Newable -> list Identifier.
Variable dependencyCount : Newable -> Z.

(** Modelled from the spec: [getDependencyCount] and [getDependencies] of
    the absent module [reflection]; each call answers with the parameter
    above and is recorded in the log. *)
Definition getDependencyCount (target : Newable) (log : list ProviderCall)
  : Z * list ProviderCall :=
  (dependencyCount target, log ++ [CallGetDependencyCount target]).

(** Modelled from the spec: [getDependencies] of the absent module
    [reflection], see above. *)
Definition getDependencies (target : Newable) (log : list ProviderCall)
  : list Identifier * list ProviderCall :=
  (dependenciesOf target, log ++ [CallGetDependencies target]).

(** [setDependencyInformationIfNotExist].  The result is the thrown error if
    any, the object after the call and the log.  The count is read only when
    [!autowire] holds, as [&&] evaluates its right operand only then. *)
Definition setDependencyInformationIfNotExist (this : t)
    (identifier : Newable) (options : BuildOptions) (log : list ProviderCall)
  : option JsError * t * list ProviderCall :=
  let autowire' := options_autowire options && autowire this in
  let '(missing, log1) :=
    if negb autowire' then
      let '(count, log') := getDependencyCount (newable this) log in
      ((count >? Z.of_nat (length (dependencies this)))%Z, log')
    else (false, log) in
  if missing then (Some (missing_dependencies identifier), this, log1)
  else if autowire' then
    let '(found, log2) := getDependencies (newable this) log1 in
    (None, {| newable := newable this; dependencies := found;
              autowire := autowire this |}, log2)
  else (None, this, log1).

(** [build]: the thrown error or the [ServiceData], the object after the
    call and the log. *)
Definition build {Value FactoryFn : Type} (this : t) (options : BuildOptions)
    (log : list ProviderCall)
  : (JsError + ServiceData Value FactoryFn) * t * list ProviderCall :=
  match setDependencyInformationIfNotExist this (newable this) options log with
  | (Some e, this', log') => (inl e, this', log')
  | (None, this', log') =>
      (inr (ClassServiceData (newable this') (dependencies this')
              (autowire this')), this', log')
  end.

End WithProvider.
End UseClass.

(** ** The builder and the graph validation

    The class [ContainerBuilder] is not among the sources; this module
    follows sections 3, 4.1 and 7 of the specification. *)

Module Builder.

(** Modelled from the spec: the failure kinds of [build] of the absent
    [ContainerBuilder] (section 7).  The
    arity mismatch carries the error raised by [UseClass.build]; the other
    two carry the identifiers they report. *)
Inductive BuildError : Type :=
| UnregisteredDependency (dependant missing : Identifier)
| CircularDependency (cycle : list Identifier)
| DependencyArityMismatch (error : JsError).

(** Modelled from the spec: the three marks of the depth-first traversal of
    the absent [ContainerBuilder].  An identifier without a mark is
    unvisited. *)
Inductive Colour : Type := InProgress | Done.

(** Modelled from the spec: what a traversal of the absent
    [ContainerBuilder] ends with, the loop it met or the new marks. *)
Inductive Traversal : Type :=
| CycleFound (cycle : list Identifier)
| Marked (marks : gmap Identifier Colour).

(** Modelled from the spec: the part of the trail of in-progress nodes that
    starts at the repeated node (cycle check of the absent
    [ContainerBuilder]). *)
Fixpoint cycle_from (node : Identifier) (trail : list Identifier)
  : list Identifier :=
  match trail with
  | [] => []
  | x :: rest => if decide (x = node) then x :: rest else cycle_from node rest
  end.

(** Modelled from the spec: one traversal after the other, stopping at the
    first cycle (cycle check of the absent [ContainerBuilder]). *)
Fixpoint visit_all (visit1 : Identifier -> gmap Identifier Colour -> option Traversal)
    (nodes : list Identifier) (marks : gmap Identifier Colour)
  : option Traversal :=
  match nodes with
  | [] => Some (Marked marks)
  | node :: rest =>
      match visit1 node marks with
      | Some (Marked marks') => visit_all visit1 rest marks'
      | other => other
      end
  end.

Section WithValues.

Context {Value FactoryFn : Type}.

(** Modelled from the spec: the registration strategies held by the absent
    [ContainerBuilder] before [build] (section 3); the by-class one is the
    [UseClass] object. *)
Inductive RegistrationStrategy : Type :=
| ByClass (use : UseClass.t)
| ByInstance (value : Value)
| ByFactory (fn : FactoryFn).

(** Modelled from the spec: the outcome of [build] of the absent
    [ContainerBuilder], a container or the reported failures, never both. *)
Inductive BuildResult : Type :=
| Built (container : Container.t Value FactoryFn)
| Failed (errors : list BuildError).

(** Modelled from the spec: [register(identifier)] of the absent
    [ContainerBuilder] followed by [useClass] (section 4.1); the last
    registration of an identifier wins. *)
Definition useClass (identifier : Identifier) (newable : Newable)
    (explicitDependencies : option (list Identifier))
    (registry : gmap Identifier RegistrationStrategy)
  : gmap Identifier RegistrationStrategy :=
  <[identifier :=
      ByClass (match explicitDependencies with
               | None => UseClass.new newable
               | Some given => UseClass.withDependencies (UseClass.new newable) given
               end)]> registry.

(** Modelled from the spec: [register(identifier)] of the absent
    [ContainerBuilder] followed by [useInstance]. *)
Definition useInstance (identifier : Identifier) (value : Value)
    (registry : gmap Identifier RegistrationStrategy)
  : gmap Identifier RegistrationStrategy :=
  <[identifier := ByInstance value]> registry.

(** Modelled from the spec: [register(identifier)] of the absent
    [ContainerBuilder] followed by [useFactory]. *)
Definition useFactory (identifier : Identifier) (fn : FactoryFn)
    (registry : gmap Identifier RegistrationStrategy)
  : gmap Identifier RegistrationStrategy :=
  <[identifier := ByFactory fn]> registry.

(** Modelled from the spec: the outgoing edges of the graph validated by the
    absent [ContainerBuilder].  Only by-class strategies have any;
    instances, factories and unregistered identifiers are leaves. *)
Definition class_dependencies
    (services : gmap Identifier (ServiceData Value FactoryFn))
    (identifier : Identifier) : list Identifier :=
  match services !! identifier with
  | Some (ClassServiceData _ dependencies _) => dependencies
  | _ => []
  end.

(** Modelled from the spec: the completeness check of the absent
    [ContainerBuilder] (validation step 1) on one entry, reporting every
    missing binding with its dependant. *)
Definition missing_of (services : gmap Identifier (ServiceData Value FactoryFn))
    (entry : Identifier * ServiceData Value FactoryFn) : list BuildError :=
  match entry with
  | (dependant, ClassServiceData _ dependencies _) =>
      UnregisteredDependency dependant <$>
        filter (fun d => services !! d = None) dependencies
  | _ => []
  end.

(** Modelled from the spec: the completeness check of the absent
    [ContainerBuilder] over the whole registry. *)
Definition checkCompleteness
    (services : gmap Identifier (ServiceData Value FactoryFn))
  : list BuildError :=
  concat (missing_of services <$> map_to_list services).

(** Modelled from the spec: the depth-first traversal with three marks of
    the absent [ContainerBuilder] (validation step 2).  [trail] lists the in-progress nodes from the root
    of the traversal down to the parent of [node]; meeting an in-progress
    node again reports the loop, starting and ending at that node.  [fuel]
    bounds the depth of the traversal. *)
Fixpoint visit (fuel : nat)
    (services : gmap Identifier (ServiceData Value FactoryFn))
    (trail : list Identifier) (node : Identifier)
    (marks : gmap Identifier Colour) : option Traversal :=
  match fuel with
  | O => None
  | S fuel' =>
      match marks !! node with
      | Some Done => Some (Marked marks)
      | Some InProgress => Some (CycleFound (cycle_from node trail ++ [node]))
      | None =>
          match visit_all (visit fuel' services (trail ++ [node]))
                  (class_dependencies services node)
                  (<[node := InProgress]> marks) with
          | Some (Marked marks') => Some (Marked (<[node := Done]> marks'))
          | other => other
          end
      end
  end.

(** Modelled from the spec: the cycle check of the absent [ContainerBuilder]
    over the whole registry: a traversal from every key, none deeper than
    the number of keys. *)
Definition detectCycle
    (services : gmap Identifier (ServiceData Value FactoryFn))
  : option Traversal :=
  visit_all (visit (S (size services)) services [])
            (fst <$> map_to_list services) ∅.

(** Modelled from the spec: the report of the cycle check of the absent
    [ContainerBuilder]. *)
Definition cycle_errors (traversal : Traversal) : list BuildError :=
  match traversal with
  | CycleFound cycle => [CircularDependency cycle]
  | Marked _ => []
  end.

Section WithProvider.

Variable dependenciesOf : Newable -> list Identifier.
Variable dependencyCount : Newable -> Z.

(** Modelled from the spec: building one strategy, in the absent
    [ContainerBuilder].  Instances and factories have no dependencies. *)
Definition buildStrategy (options : UseClass.BuildOptions)
    (strategy : RegistrationStrategy) (log : list UseClass.ProviderCall)
  : (JsError + ServiceData Value FactoryFn) * list UseClass.ProviderCall :=
  match strategy with
  | ByClass use =>
      let '(result, _, log') :=
        UseClass.build dependenciesOf dependencyCount use options log in
      (result, log')
  | ByInstance value => (inr (InstanceServiceData value []), log)
  | ByFactory fn => (inr (FactoryServiceData fn []), log)
  end.

(** Modelled from the spec: the first part of [build] of the absent
    [ContainerBuilder]: every pending registration is built in turn, and the
    first arity mismatch ends the build. *)
Fixpoint finalize (options : UseClass.BuildOptions)
    (pending : list (Identifier * RegistrationStrategy))
    (services : gmap Identifier (ServiceData Value FactoryFn))
    (log : list UseClass.ProviderCall)
  : (JsError + gmap Identifier (ServiceData Value FactoryFn))
    * list UseClass.ProviderCall :=
  match pending with
  | [] => (inr services, log)
  | (identifier, strategy) :: rest =>
      match buildStrategy options strategy log with
      | (inl e, log') => (inl e, log')
      | (inr data, log') =>
          finalize options rest (<[identifier := data]> services) log'
      end
  end.

(** Modelled from the spec: [build(options)] of the absent
    [ContainerBuilder].  The strategies are built
    first; then both graph-wide checks run and report; a container comes out
    only when nothing was reported.  [None] is a traversal that did not
    finish. *)
Definition build (options : UseClass.BuildOptions)
    (registry : gmap Identifier RegistrationStrategy)
    (log : list UseClass.ProviderCall)
  : option BuildResult * list UseClass.ProviderCall :=
  match finalize options (map_to_list registry) ∅ log with
  | (inl e, log') => (Some (Failed [DependencyArityMismatch e]), log')
  | (inr services, log') =>
      match detectCycle services with
      | None => (None, log')
      | Some traversal =>
          match checkCompleteness services ++ cycle_errors traversal with
          | [] => (Some (Built (Container.MkContainer services)), log')
          | errors => (Some (Failed errors), log')
          end
      end
  end.

End WithProvider.
End WithValues.

Arguments RegistrationStrategy : clear implicits.
Arguments BuildResult : clear implicits.

End Builder.

(** ** Notions used to state the properties *)

(** Consecutive elements of [l] are related by [R]. *)
Fixpoint chain {A : Type} (R : A -> A -> Prop) (l : list A) : Prop :=
  match l with
  | [] => True
  | x :: rest =>
      match rest with
      | [] => True
      | y :: _ => R x y /\ chain R rest
      end
  end.

(** [cycle] is a loop of [R]: it starts and ends at the same element and
    follows [R] at every step. *)
Definition is_cycle {A : Type} (R : A -> A -> Prop) (cycle : list A) : Prop :=
  (exists x middle, cycle = x :: middle ++ [x]) /\ chain R cycle.

Section GraphNotions.

Context {Value World FactoryFn : Type}.

(** [b] is listed in the [dependencies] array of the entry of [a]: the
    relation along which [Container.get] calls itself. *)
Definition depends_on (this : Container.t Value FactoryFn)
    (a b : Identifier) : Prop :=
  exists data, Container.services this !! a = Some data
               /\ b ∈ sd_dependencies data.

Definition acyclic (this : Container.t Value FactoryFn) : Prop :=
  forall a, ~ tc (depends_on this) a a.

(** Every dependency of every by-class entry is a key of the map. *)
Definition class_complete (this : Container.t Value FactoryFn) : Prop :=
  forall a class dependencies autowire d,
    Container.services this !! a
      = Some (ClassServiceData class dependencies autowire) ->
    d ∈ dependencies -> is_Some (Container.services this !! d).

(** Every identifier listed in a [dependencies] array is a key of the map. *)
Definition all_registered (this : Container.t Value FactoryFn) : Prop :=
  forall a data d,
    Container.services this !! a = Some data ->
    d ∈ sd_dependencies data -> is_Some (Container.services this !! d).

(** The identifiers of [ids] are resolved one after the other, from left to
    right, each call starting in the world the previous one left, and [vs]
    lists the results at the same positions. *)
Inductive resolves_in_order
    (get : Identifier -> World -> option (Completion World Value))
  : list Identifier -> World -> list Value -> World -> Prop :=
| resolves_nil w : resolves_in_order get [] w [] w
| resolves_cons id ids w v w1 vs w2 :
    get id w = Some (Returned v w1) ->
    resolves_in_order get ids w1 vs w2 ->
    resolves_in_order get (id :: ids) w (v :: vs) w2.

(** The edges of the graph the validation walks over. *)
Definition class_edge (services : gmap Identifier (ServiceData Value FactoryFn))
    (a b : Identifier) : Prop :=
  b ∈ Builder.class_dependencies services a.

(** The state of a traversal that has reported nothing yet: the in-progress
    nodes are those of the trail, each of them once; done nodes have all
    their successors done, and lie on no loop. *)
Definition marks_ok (services : gmap Identifier (ServiceData Value FactoryFn))
    (trail : list Identifier) (marks : gmap Identifier Builder.Colour) : Prop :=
  NoDup trail
  /\ (forall x, marks !! x = Some Builder.InProgress <-> x ∈ trail)
  /\ (forall x y, marks !! x = Some Builder.Done -> class_edge services x y ->
                  marks !! y = Some Builder.Done)
  /\ (forall x, marks !! x = Some Builder.Done ->
                ~ tc (class_edge services) x x).

(** What one traversal step guarantees when started on [marks] at [node]. *)
Definition visit_ok (services : gmap Identifier (ServiceData Value FactoryFn))
    (trail : list Identifier) (marks : gmap Identifier Builder.Colour)
    (nodes : list Identifier) (result : option Builder.Traversal) : Prop :=
  match result with
  | None => False
  | Some (Builder.CycleFound cycle) => is_cycle (class_edge services) cycle
  | Some (Builder.Marked marks') =>
      marks_ok services trail marks'
      /\ (forall node, node ∈ nodes -> marks' !! node = Some Builder.Done)
      /\ (forall x, marks !! x = Some Builder.Done ->
                    marks' !! x = Some Builder.Done)
  end.

End GraphNotions.

(** The local constant [autowire] of [setDependencyInformationIfNotExist]. *)
Definition options_autowire_and (this : UseClass.t)
    (options : UseClass.BuildOptions) : bool :=
  UseClass.options_autowire options && UseClass.autowire this.

(** ** A small host, to run the definitions *)

Module Demo.

#[local] Set Warnings "-register-all".

(** Values: numbers, objects made by [new] (with the address they were
    allocated at) and what a factory produced. *)
Inductive JsValue : Type :=
| Num (n : Z)
| Obj (address : nat) (class : Newable) (args : list JsValue)
| Made (address : nat) (factory : nat).

(** The world is the next free address. *)
Definition construct (class : Newable) (args : list JsValue) (w : nat)
  : Completion nat JsValue :=
  Returned (Obj w class args) (S w).

Definition invoke (factory : nat) (w : nat) : Completion nat JsValue :=
  Returned (Made w factory) (S w).

Definition A : Identifier := MkIdentifier 1 "A".
Definition B : Identifier := MkIdentifier 2 "B".
Definition C : Identifier := MkIdentifier 3 "C".
Definition Mailer : Identifier := MkIdentifier 4 "Mailer".
Definition AcmeMailer : Identifier := MkIdentifier 5 "AcmeMailer".

(** A -> [], B -> [A], C -> [B; A], and an instance bound to Mailer. *)
Definition chain_services : gmap Identifier (ServiceData JsValue nat) :=
  <[A := ClassServiceData A [] true]>
  (<[B := ClassServiceData B [A] true]>
  (<[C := ClassServiceData C [B; A] false]>
  (<[Mailer := InstanceServiceData (Num 7) []]> ∅))).

Definition chain_container : Container.t JsValue nat :=
  Container.MkContainer chain_services.

(** An instance and a factory whose [dependencies] arrays are not empty. *)
Definition odd_container : Container.t JsValue nat :=
  Container.MkContainer
    (<[A := InstanceServiceData (Num 1) [B]]>
    (<[C := FactoryServiceData 0%nat [Mailer; B]]>
    (<[Mailer := InstanceServiceData (Num 7) []]> ∅))).

(** The provider: C needs B and A, B needs A, AcmeMailer needs C. *)
Definition dependenciesOf (class : Newable) : list Identifier :=
  if decide (class = C) then [B; A]
  else if decide (class = B) then [A]
  else if decide (class = AcmeMailer) then [C] else [].

Definition dependencyCount (class : Newable) : Z :=
  Z.of_nat (length (dependenciesOf class)).

(** Two classes that take the same two instances in opposite orders. *)
Definition Clock : Identifier := MkIdentifier 6 "Clock".

Definition swapped_container : Container.t JsValue nat :=
  Container.MkContainer
    (<[A := ClassServiceData A [Mailer; Clock] false]>
    (<[B := ClassServiceData B [Clock; Mailer] false]>
    (<[Mailer := InstanceServiceData (Num 7) []]>
    (<[Clock := InstanceServiceData (Num 9) []]> ∅)))).

Definition swapped_value (d : Identifier) : JsValue :=
  if decide (d = Mailer) then Num 7 else Num 9.

(** Three registration sets: A -> [], B -> [A], C -> [B; A] with an instance
    and a factory, which is valid; A -> [B], B -> [A], which is circular; and
    A -> [B] alone. *)
Definition valid_registry
  : gmap Identifier (Builder.RegistrationStrategy JsValue nat) :=
  Builder.useFactory Clock 0%nat
    (Builder.useInstance Mailer (Num 7)
      (Builder.useClass C C (Some [B; A])
        (Builder.useClass B B None
          (Builder.useClass A A None ∅)))).

Definition valid_container : Container.t JsValue nat :=
  Container.MkContainer
    (<[A := ClassServiceData A [] true]>
    (<[B := ClassServiceData B [A] true]>
    (<[C := ClassServiceData C [B; A] false]>
    (<[Mailer := InstanceServiceData (Num 7) []]>
    (<[Clock := FactoryServiceData 0%nat []]> ∅))))).

Definition cyclic_registry
  : gmap Identifier (Builder.RegistrationStrategy JsValue nat) :=
  Builder.useClass B B (Some [A]) (Builder.useClass A A (Some [B]) ∅).

Definition cyclic_services : gmap Identifier (ServiceData JsValue nat) :=
  <[A := ClassServiceData A [B] false]>
  (<[B := ClassServiceData B [A] false]> ∅).

Definition dangling_registry
  : gmap Identifier (Builder.RegistrationStrategy JsValue nat) :=
  Builder.useClass A A (Some [B]) ∅.

Definition dangling_services : gmap Identifier (ServiceData JsValue nat) :=
  <[A := ClassServiceData A [B] false]> ∅.

(** A class that depends on itself, and a contract bound to a class that is
    given too few dependencies. *)
Definition selfish_registry
  : gmap Identifier (Builder.RegistrationStrategy JsValue nat) :=
  Builder.useClass A A (Some [A]) ∅.

Definition short_registry
  : gmap Identifier (Builder.RegistrationStrategy JsValue nat) :=
  Builder.useClass Mailer AcmeMailer (Some []) ∅.

End Demo.

(** ** Further notions and cases *)

Section ResolutionNotions.

Context {Value FactoryFn : Type}.

(** [b] is the first identifier of the [dependencies] array of the entry of
    [a]: the first recursive call that [Container.get] makes on [a]. *)
Definition first_dependency (this : Container.t Value FactoryFn)
    (a b : Identifier) : Prop :=
  exists data, Container.services this !! a = Some data
               /\ head (sd_dependencies data) = Some b.

End ResolutionNotions.

Module Cases.

(** A -> [B], B -> [A] as a container, had it slipped past the validation. *)
Definition cyclic_container : Container.t Demo.JsValue nat :=
  Container.MkContainer Demo.cyclic_services.

(** The chain container with one more factory, bound to Clock. *)
Definition extended_container : Container.t Demo.JsValue nat :=
  Container.MkContainer
    (<[Demo.Clock := FactoryServiceData 0%nat []]>
       (Container.services Demo.chain_container)).

End Cases.

(** * Properties *)

(** Resolving C builds A, then B on it, then A once more: nothing is cached. *)
Example demo_get_C :
  Container.get Demo.construct Demo.invoke 3 Demo.chain_container Demo.C 0%nat
  = Some (Returned (Demo.Obj 3 Demo.C
                      [Demo.Obj 1 Demo.B [Demo.Obj 0 Demo.A []];
                       Demo.Obj 2 Demo.A []]) 4%nat).
Proof. vm_compute. reflexivity. Qed.

Example demo_get_unregistered :
  Container.get Demo.construct Demo.invoke 1 Demo.chain_container
    Demo.AcmeMailer 5%nat
  = Some (Thrown (MkError "Service not registered for: AcmeMailer") 5%nat).
Proof. vm_compute. reflexivity. Qed.

(** ** The container *)

Section ContainerFacts.

Context {Value World FactoryFn : Type}.
Variable construct : Newable -> list Value -> World -> Completion World Value.
Variable invoke : FactoryFn -> World -> Completion World Value.

Local Abbreviation get := (Container.get construct invoke).
Local Abbreviation getDependencies := (Container.getDependencies construct invoke).
Local Abbreviation loop := Container.getDependencies_loop.

Implicit Types (this : Container.t Value FactoryFn) (w : World)
  (data : ServiceData Value FactoryFn) (ids : list Identifier)
  (id d : Identifier) (vs acc : list Value)
  (g : Identifier -> World -> option (Completion World Value)).

Lemma get_unfold fuel this id w :
  get (S fuel) this id w =
  match Container.findServiceDataOrThrow this id with
  | inl e => Some (Thrown e w)
  | inr data =>
      match getDependencies fuel this (sd_dependencies data) w with
      | Some (Returned dependencies w') =>
          Some (Container.realize construct invoke data dependencies w')
      | Some (Thrown e w') => Some (Thrown e w')
      | None => None
      end
  end.
Proof. reflexivity. Qed.

Lemma find_registered this id data :
  Container.services this !! id = Some data ->
  Container.findServiceDataOrThrow this id = inr data.
Proof. unfold Container.findServiceDataOrThrow. by intros ->. Qed.

Lemma find_unregistered this id :
  Container.services this !! id = None ->
  Container.findServiceDataOrThrow this id = inl (Container.not_registered id).
Proof. unfold Container.findServiceDataOrThrow. by intros ->. Qed.

(** What [push] has already stored stays in front of what the rest of the
    loop adds. *)
Lemma loop_accumulator g ids acc w :
  loop g ids acc w =
  match loop g ids [] w with
  | Some (Returned vs w') => Some (Returned (acc ++ vs) w')
  | other => other
  end.
Proof.
  revert acc w. induction ids as [|d ids IH]; intros acc w; simpl.
  - by rewrite app_nil_r.
  - destruct (g d w) as [[v w1|e w1]|]; try done.
    rewrite (IH (acc ++ [v])), (IH ([] ++ [v])).
    destruct (loop g ids [] w1) as [[vs w2|e w2]|]; try done.
    by rewrite <- app_assoc.
Qed.

Lemma loop_cons g d ids w :
  loop g (d :: ids) [] w =
  match g d w with
  | Some (Returned v w1) =>
      match loop g ids [] w1 with
      | Some (Returned vs w2) => Some (Returned (v :: vs) w2)
      | other => other
      end
  | Some (Thrown e w1) => Some (Thrown e w1)
  | None => None
  end.
Proof.
  simpl. destruct (g d w) as [[v w1|e w1]|]; try done.
  by rewrite loop_accumulator.
Qed.

Lemma loop_in_order g ids w vs w' :
  loop g ids [] w = Some (Returned vs w') <-> resolves_in_order g ids w vs w'.
Proof.
  split.
  - revert w vs. induction ids as [|d ids IH]; intros w vs.
    + simpl. intros [= <- <-]. constructor.
    + rewrite loop_cons. destruct (g d w) as [[v w1|e w1]|] eqn:Hd; try done.
      destruct (loop g ids [] w1) as [[vs1 w2|e w2]|] eqn:Hl; try done.
      intros [= <- <-]. econstructor; eauto.
  - induction 1 as [|d ids w v w1 vs w2 Hd _ IH]; [done|].
    by rewrite loop_cons, Hd, IH.
Qed.

Lemma resolves_positions g ids w vs w' :
  resolves_in_order g ids w vs w' ->
  length vs = length ids /\
  forall i d, ids !! i = Some d ->
    exists v wi wi', vs !! i = Some v /\ g d wi = Some (Returned v wi').
Proof.
  induction 1 as [|d ids w v w1 vs w2 Hd _ [IHl IHp]]; simpl.
  - split; [done|]. intros i d Hi. by rewrite lookup_nil in Hi.
  - split; [by rewrite IHl|].
    intros [|i] d' Hi; simpl in *.
    + injection Hi as <-. eauto.
    + eauto.
Qed.

(** A loop whose calls all finish finishes. *)
Lemma loop_total g ids :
  (forall d, d ∈ ids -> forall w, is_Some (g d w)) ->
  forall acc w, is_Some (loop g ids acc w).
Proof.
  induction ids as [|d ids IH]; intros Hg acc w; simpl; [by eexists|].
  destruct (Hg d (list_elem_of_here _ _) w) as [[v w1|e w1] ->]; [|by eexists].
  apply IH. intros d' Hd'. apply Hg. by apply list_elem_of_further.
Qed.

Lemma loop_mono g1 g2 ids :
  (forall d w r, d ∈ ids -> g1 d w = Some r -> g2 d w = Some r) ->
  forall acc w r, loop g1 ids acc w = Some r -> loop g2 ids acc w = Some r.
Proof.
  induction ids as [|d ids IH]; intros Hg acc w r; simpl; [done|].
  destruct (g1 d w) as [[v w1|e w1]|] eqn:H1; [| |done].
  - rewrite (Hg _ _ _ (list_elem_of_here _ _) H1).
    apply IH. intros d' w' r' Hd'. apply Hg. by apply list_elem_of_further.
  - by rewrite (Hg _ _ _ (list_elem_of_here _ _) H1).
Qed.

(** More fuel does not change a result. *)
Lemma get_fuel_mono this n m id w r :
  n <= m -> get n this id w = Some r -> get m this id w = Some r.
Proof.
  revert m id w r. induction n as [|n IH]; intros m id w r Hle; [done|].
  destruct m as [|m]; [lia|]. rewrite !get_unfold.
  destruct (Container.findServiceDataOrThrow this id) as [e|data]; [done|].
  unfold Container.getDependencies.
  destruct (loop (get n this) _ [] w) as [c|] eqn:Hl; [|done].
  rewrite (loop_mono (get n this) (get m this) _
             (fun d w r _ => IH m d w r ltac:(lia)) _ _ _ Hl).
  done.
Qed.

(** With no cycle among the [dependencies] arrays, the recursion is at most
    as deep as the map has keys: [anc] collects the callers of [id]. *)
Lemma get_fuel_enough this :
  acyclic this ->
  forall fuel (anc : gset Identifier) id w,
    anc ⊆ dom (Container.services this) ->
    (forall a, a ∈ anc -> tc (depends_on this) a id) ->
    size (Container.services this) < fuel + size anc ->
    is_Some (get fuel this id w).
Proof.
  intros Hacyc. induction fuel as [|fuel IH]; intros anc id w Hdom Hanc Hsize.
  - apply subseteq_size in Hdom. rewrite size_dom in Hdom. lia.
  - rewrite get_unfold. unfold Container.findServiceDataOrThrow.
    destruct (Container.services this !! id) as [data|] eqn:Hid; [|by eexists].
    assert (Hnot : id ∉ anc).
    { intros Hin. exact (Hacyc id (Hanc id Hin)). }
    assert (Hall : forall d, d ∈ sd_dependencies data ->
                     forall w', is_Some (get fuel this d w')).
    { intros d Hd w'. apply (IH ({[id]} ∪ anc)).
      - apply union_subseteq. split; [|done].
        apply singleton_subseteq_l, elem_of_dom. by eexists.
      - intros a [->%elem_of_singleton|Ha]%elem_of_union.
        + apply tc_once. by exists data.
        + eapply tc_r; [by apply Hanc|]. by exists data.
      - rewrite size_union by set_solver. rewrite size_singleton. lia. }
    unfold Container.getDependencies.
    destruct (loop_total (get fuel this) _ Hall [] w) as [[vs w'|e w'] ->];
      by eexists.
Qed.

Lemma tc_last_step this a b :
  tc (depends_on this) a b -> exists z, depends_on this z b.
Proof. induction 1; eauto. Qed.

Lemma depends_on_finite this a : pred_finite (tc (depends_on this) a).
Proof.
  exists (concat ((fun entry => sd_dependencies entry.2)
                    <$> map_to_list (Container.services this))).
  intros b [z [data [Hz Hb]]]%tc_last_step.
  apply list_elem_of_In, in_concat. exists (sd_dependencies data).
  split; [|by apply list_elem_of_In].
  apply list_elem_of_In, list_elem_of_fmap. exists (z, data).
  split; [done|]. by apply elem_of_map_to_list.
Qed.

(** A rank that decreases along every dependency excludes cycles. *)
Lemma acyclic_by_rank this (rank : Identifier -> nat) :
  (forall a b, depends_on this a b -> rank b < rank a) -> acyclic this.
Proof.
  intros Hrank.
  assert (Htc : forall a b, tc (depends_on this) a b -> rank b < rank a).
  { induction 1 as [a b H|a b c H _ IH]; [by apply Hrank|].
    apply Hrank in H. lia. }
  intros a Ha. apply Htc in Ha. lia.
Qed.

Lemma loop_pure g ids (val : Identifier -> Value) :
  (forall d w0, d ∈ ids -> g d w0 = Some (Returned (val d) w0)) ->
  forall w, loop g ids [] w = Some (Returned (val <$> ids) w).
Proof.
  induction ids as [|d ids IH]; intros Hg w; [done|].
  rewrite loop_cons, (Hg d w (list_elem_of_here _ _)), IH; [done|].
  intros d' w0 Hd'. apply Hg. by apply list_elem_of_further.
Qed.

(** A call on an absent identifier in the list makes the loop fail. *)
Lemma loop_absent g ids d :
  d ∈ ids -> (forall w v w', g d w <> Some (Returned v w')) ->
  forall acc w vs w', loop g ids acc w <> Some (Returned vs w').
Proof.
  intros Hd Hg. induction ids as [|d' ids IH]; intros acc w vs w'.
  - by apply not_elem_of_nil in Hd.
  - simpl. destruct (g d' w) as [[v w1|e w1]|] eqn:Hd'; [|done|done].
    apply elem_of_cons in Hd as [->|Hd]; [by apply Hg in Hd'|by apply IH].
Qed.

(** Without cycles every call finishes, with a result that no longer depends
    on the fuel once the fuel exceeds the number of keys. *)
Lemma get_finishes this :
  acyclic this ->
  forall id w, exists r, forall fuel,
    size (Container.services this) < fuel -> get fuel this id w = Some r.
Proof.
  intros Hacyc id w.
  destruct (get_fuel_enough this Hacyc
              (S (size (Container.services this))) ∅ id w) as [r Hr].
  - apply empty_subseteq.
  - intros a Ha. by apply not_elem_of_empty in Ha.
  - rewrite size_empty. lia.
  - exists r. intros fuel Hfuel. eapply get_fuel_mono; [|exact Hr]. lia.
Qed.

(** When instances and factories list no dependencies, as the builder makes
    them, the dependency relation is the graph of the by-class lists. *)
Lemma leaf_entries_acyclic (services : gmap Identifier (ServiceData Value FactoryFn)) :
  (forall id data, services !! id = Some data ->
     sd_type data <> TClass -> sd_dependencies data = []) ->
  (forall x, ~ tc (class_edge services) x x) ->
  acyclic (Container.MkContainer services).
Proof.
  intros Hleaf Hno.
  assert (Htc : forall a b,
            tc (depends_on (Container.MkContainer services)) a b ->
            tc (class_edge services) a b).
  { assert (Hsub : forall a b,
              depends_on (Container.MkContainer services) a b ->
              class_edge services a b).
    { intros a b (data & Ha & Hb). simpl in Ha.
      unfold class_edge, Builder.class_dependencies. rewrite Ha.
      destruct data as [class deps aw|i deps|f deps]; [done| |];
        by rewrite (Hleaf a _ Ha) in Hb. }
    induction 1 as [a b H|a b c H _ IH].
    - by apply tc_once, Hsub.
    - eapply tc_l; [by apply Hsub|done]. }
  intros a Ha. by apply (Hno a), Htc.
Qed.

(** An instance that lists itself: the recursion never ends. *)
Lemma self_listed_instance_loops (instance : Value) id fuel w :
  get fuel (Container.MkContainer {[id := InstanceServiceData instance [id]]})
    id w = None.
Proof.
  revert w. induction fuel as [|fuel IH]; intros w; [done|].
  rewrite get_unfold. unfold Container.findServiceDataOrThrow. simpl.
  rewrite lookup_singleton_eq. simpl.
  unfold Container.getDependencies. simpl. by rewrite IH.
Qed.

(** C2: on a service graph with the guarantees of the validation (every
    dependency of every by-class entry is a key of the map, and no cycle
    among the dependency lists), the dependency relation is well founded and
    [Container.get] terminates on every identifier: any recursion depth
    above the number of keys yields one and the same completion. *)
Theorem get_terminates this :
  class_complete this -> acyclic this ->
  (forall id, sn (depends_on this) id) /\
  (forall id w, exists r, forall fuel,
     size (Container.services this) < fuel -> get fuel this id w = Some r).
Proof.
  intros _ Hacyc. split.
  - intros id. apply tc_finite_sn; [|apply depends_on_finite].
    intros a. apply Hacyc.
  - by apply get_finishes.
Qed.

(** An error that leaves the loop was thrown by one of its calls. *)
Lemma loop_thrown g ids acc w e w' :
  loop g ids acc w = Some (Thrown e w') ->
  exists d w0, d ∈ ids /\ g d w0 = Some (Thrown e w').
Proof.
  revert acc w. induction ids as [|d ids IH]; intros acc w; simpl; [done|].
  destruct (g d w) as [[v w1|e1 w1]|] eqn:Hd; [| |done].
  - intros (d' & w0 & Hd' & Hg)%IH. exists d', w0.
    split; [by apply list_elem_of_further|done].
  - intros [= -> ->]. exists d, w. split; [apply list_elem_of_here|done].
Qed.

(** When every listed identifier is registered, an error thrown by [get] on
    a registered identifier comes out of a constructor or of a factory. *)
Lemma get_throws_from_host this :
  all_registered this ->
  forall fuel id w e w',
    is_Some (Container.services this !! id) ->
    get fuel this id w = Some (Thrown e w') ->
    (exists class args w0, construct class args w0 = Thrown e w')
    \/ (exists factory w0, invoke factory w0 = Thrown e w').
Proof.
  intros Hall. induction fuel as [|fuel IH]; intros id w e w' [data Hid];
    [done|].
  rewrite get_unfold, (find_registered _ _ _ Hid). simpl.
  unfold Container.getDependencies.
  destruct (loop (get fuel this) (sd_dependencies data) [] w)
    as [[vs w1|e1 w1]|] eqn:Hloop; [| |done].
  - intros [= Hr]. destruct data as [class deps aw|instance deps|factory deps];
      simpl in Hr; [left; by eauto|done|right; by eauto].
  - intros [= -> ->]. apply loop_thrown in Hloop as (d & w0 & Hd & Hthrown).
    apply (IH d w0 e w'); [|done]. by apply (Hall id data).
Qed.

(** C5: the lookup of [get] throws the error that names the identifier
    exactly when the identifier is absent from the map; [get] on an absent
    identifier throws that error at once, and on a present identifier the
    lookup returns the entry, so that whatever [get] then throws comes from
    the resolution of the dependencies or from the constructor or factory;
    when every listed identifier is registered, it comes from a constructor
    or a factory. *)
Theorem get_unregistered_lookup this id :
  message (Container.not_registered id)
    = String.append "Service not registered for: " (ident_name id) /\
  (Container.services this !! id = None <->
   Container.findServiceDataOrThrow this id
     = inl (Container.not_registered id)) /\
  (Container.services this !! id = None ->
   forall fuel w,
     get (S fuel) this id w = Some (Thrown (Container.not_registered id) w)) /\
  (forall data, Container.services this !! id = Some data ->
   Container.findServiceDataOrThrow this id = inr data /\
   forall fuel w e w', get (S fuel) this id w = Some (Thrown e w') ->
     getDependencies fuel this (sd_dependencies data) w = Some (Thrown e w')
     \/ exists vs w1,
          getDependencies fuel this (sd_dependencies data) w
            = Some (Returned vs w1)
          /\ Container.realize construct invoke data vs w1 = Thrown e w') /\
  (all_registered this -> is_Some (Container.services this !! id) ->
   forall fuel w e w', get fuel this id w = Some (Thrown e w') ->
     (exists class args w0, construct class args w0 = Thrown e w')
     \/ (exists factory w0, invoke factory w0 = Thrown e w')).
Proof.
  split; [done|]. split; [|split; [|split]].
  4: { intros Hall Hid fuel w e w'. by apply get_throws_from_host. }
  - unfold Container.findServiceDataOrThrow.
    destruct (Container.services this !! id); split; done.
  - intros Hid fuel w. by rewrite get_unfold, find_unregistered.
  - intros data Hid. split; [by apply find_registered|].
    intros fuel w e w'. rewrite get_unfold, (find_registered _ _ _ Hid).
    simpl. destruct (getDependencies fuel this (sd_dependencies data) w)
      as [[vs w1|e1 w1]|].
    + intros [= Hr]. right. by exists vs, w1.
    + intros [= -> ->]. by left.
    + done.
Qed.

(** C7: for a by-class entry, [get] resolves the identifiers of the
    dependency list by calls of [get] from left to right and passes the
    results to the constructor at the same positions; when the resolution of
    each dependency is independent of the world, an entry whose list is a
    permutation of the list gets its arguments permuted in the same way. *)
Theorem get_class_order this id class deps autowire :
  Container.services this !! id
    = Some (ClassServiceData class deps autowire) ->
  forall fuel w,
  (forall r, get (S fuel) this id w = Some r <->
     (exists vs w', resolves_in_order (get fuel this) deps w vs w'
                    /\ r = construct class vs w')
     \/ (exists e w', getDependencies fuel this deps w = Some (Thrown e w')
                      /\ r = Thrown e w')) /\
  (forall vs w', resolves_in_order (get fuel this) deps w vs w' ->
     length vs = length deps /\
     forall i d, deps !! i = Some d ->
       exists v wi wi', vs !! i = Some v
                        /\ get fuel this d wi = Some (Returned v wi')) /\
  (forall val : Identifier -> Value,
     (forall d w0, d ∈ deps -> get fuel this d w0 = Some (Returned (val d) w0)) ->
     get (S fuel) this id w = Some (construct class (val <$> deps) w) /\
     forall id' class' deps' autowire',
       Container.services this !! id'
         = Some (ClassServiceData class' deps' autowire') ->
       deps' ≡ₚ deps ->
       get (S fuel) this id' w = Some (construct class' (val <$> deps') w)
       /\ val <$> deps' ≡ₚ val <$> deps
       /\ forall i j, deps' !! i = deps !! j ->
            (val <$> deps') !! i = (val <$> deps) !! j).
Proof.
  intros Hid fuel w. split; [|split].
  - intros r. rewrite get_unfold, (find_registered _ _ _ Hid). simpl.
    unfold Container.getDependencies.
    destruct (loop (get fuel this) deps [] w) as [[vs w'|e w']|] eqn:Hl.
    + apply loop_in_order in Hl. split.
      * intros [= <-]. left. by exists vs, w'.
      * intros [(vs' & w'' & Hres & ->)|(e & w'' & [=] & _)].
        apply loop_in_order in Hl, Hres. rewrite Hl in Hres.
        by injection Hres as <- <-.
    + split.
      * intros [= <-]. right. by exists e, w'.
      * intros [(vs' & w'' & Hres & ->)|(e' & w'' & [= <- <-] & ->)]; [|done].
        apply loop_in_order in Hres. by rewrite Hl in Hres.
    + split; [done|].
      intros [(vs' & w'' & Hres & ->)|(e' & w'' & [=] & _)].
      apply loop_in_order in Hres. by rewrite Hl in Hres.
  - intros vs w'. apply resolves_positions.
  - intros val Hpure. split.
    + rewrite get_unfold, (find_registered _ _ _ Hid). simpl.
      unfold Container.getDependencies. by rewrite (loop_pure _ _ val Hpure).
    + intros id' class' deps' autowire' Hid' Hperm. split; [|split].
      * rewrite get_unfold, (find_registered _ _ _ Hid'). simpl.
        unfold Container.getDependencies. rewrite (loop_pure _ _ val); [done|].
        intros d w0 Hd. apply Hpure. by rewrite <- Hperm.
      * by apply fmap_Permutation.
      * intros i j Hij. by rewrite !list_lookup_fmap, Hij.
Qed.

(** C8: for an identifier bound to an instance (whose [dependencies] array
    is empty, as the strategy has no dependencies), every call of [get]
    returns the stored value itself and leaves the world as it was; whatever
    the array, a value returned by [get] is the stored one. *)
Theorem get_instance_identity this id instance deps :
  Container.services this !! id = Some (InstanceServiceData instance deps) ->
  (deps = [] ->
   forall fuel w, get (S fuel) this id w = Some (Returned instance w)) /\
  (forall fuel w v w',
     get fuel this id w = Some (Returned v w') -> v = instance).
Proof.
  intros Hid. split.
  - intros -> fuel w. by rewrite get_unfold, (find_registered _ _ _ Hid).
  - intros [|fuel] w v w'; [done|].
    rewrite get_unfold, (find_registered _ _ _ Hid). simpl.
    destruct (getDependencies fuel this deps w) as [[vs w1|e w1]|]; try done.
    by intros [= <- _].
Qed.

(** Once a prefix of the list is resolved, the loop goes on with the rest. *)
Lemma loop_after_resolved g before rest acc w vs w1 :
  resolves_in_order g before w vs w1 ->
  loop g (before ++ rest) acc w = loop g rest (acc ++ vs) w1.
Proof.
  intros Hres. revert acc.
  induction Hres as [|d ids w v w1 vs w2 Hd _ IH]; intros acc; simpl.
  - by rewrite app_nil_r.
  - rewrite Hd, IH. by rewrite <- app_assoc.
Qed.

(** C9: for an entry of type instance or factory, [get] resolves the whole
    [dependencies] array before it looks at the type: the instance is
    returned (or the factory called) in the world the resolutions left, and
    only if every listed identifier was resolved.  When a listed identifier
    is absent from the map, the resolution never succeeds and whatever [get]
    completes with is a throw; it throws the lookup error of the absent
    identifier once those listed before it are resolved, and it throws for
    every fuel above the number of keys when the dependency lists are
    acyclic. *)
Theorem get_resolves_before_type this id data :
  Container.services this !! id = Some data ->
  sd_type data <> TClass ->
  (forall fuel w,
     get (S fuel) this id w =
     match getDependencies fuel this (sd_dependencies data) w with
     | Some (Returned _ w') =>
         Some (Container.realize construct invoke data [] w')
     | Some (Thrown e w') => Some (Thrown e w')
     | None => None
     end) /\
  (forall fuel w vs w',
     getDependencies fuel this (sd_dependencies data) w = Some (Returned vs w')
     <-> resolves_in_order (get fuel this) (sd_dependencies data) w vs w') /\
  (forall d, d ∈ sd_dependencies data ->
     Container.services this !! d = None ->
     (forall fuel w vs w',
        getDependencies fuel this (sd_dependencies data) w
        <> Some (Returned vs w')) /\
     (forall fuel w r, get fuel this id w = Some r ->
        exists e w', r = Thrown e w') /\
     (forall before after fuel w vs w1,
        sd_dependencies data = before ++ d :: after ->
        resolves_in_order (get (S fuel) this) before w vs w1 ->
        get (S (S fuel)) this id w
          = Some (Thrown (Container.not_registered d) w1)) /\
     (acyclic this -> forall fuel w,
        size (Container.services this) < fuel ->
        exists e w', get fuel this id w = Some (Thrown e w'))).
Proof.
  intros Hid Htype.
  assert (Heq : forall fuel w,
            get (S fuel) this id w =
            match getDependencies fuel this (sd_dependencies data) w with
            | Some (Returned _ w') =>
                Some (Container.realize construct invoke data [] w')
            | Some (Thrown e w') => Some (Thrown e w')
            | None => None
            end).
  { intros fuel w. rewrite get_unfold, (find_registered _ _ _ Hid).
    destruct (getDependencies fuel this (sd_dependencies data) w)
      as [[vs w'|e w']|]; try done.
    by destruct data. }
  split; [exact Heq|]. split.
  - intros fuel w vs w'. apply loop_in_order.
  - intros d Hd Hnone.
    assert (Hfail : forall fuel w vs w',
              getDependencies fuel this (sd_dependencies data) w
              <> Some (Returned vs w')).
    { intros fuel w. apply (loop_absent _ _ d Hd).
      intros w0 v w1. destruct fuel as [|fuel]; [done|].
      by rewrite get_unfold, (find_unregistered _ _ Hnone). }
    assert (Hthrow : forall fuel w r, get fuel this id w = Some r ->
              exists e w', r = Thrown e w').
    { intros [|fuel] w r; [done|]. rewrite Heq.
      specialize (Hfail fuel w).
      destruct (getDependencies fuel this (sd_dependencies data) w)
        as [[vs w'|e w']|]; [by destruct (Hfail vs w')| |done].
      intros [= <-]. by exists e, w'. }
    split; [exact Hfail|]. split; [exact Hthrow|]. split.
    + intros before after fuel w vs w1 Hsplit Hres.
      rewrite Heq. unfold Container.getDependencies. rewrite Hsplit.
      rewrite (loop_after_resolved _ _ _ _ _ _ _ Hres). simpl.
      by rewrite (find_unregistered _ _ Hnone).
    + intros Hacyc fuel w Hsize.
      destruct (get_fuel_enough this Hacyc fuel ∅ id w) as [r Hr].
      * apply empty_subseteq.
      * intros a Ha. by apply not_elem_of_empty in Ha.
      * rewrite size_empty. lia.
      * destruct (Hthrow _ _ _ Hr) as (e & w' & ->). by exists e, w'.
Qed.

End ContainerFacts.

(** ** The by-class registration *)

Section UseClassFacts.

Context {Value FactoryFn : Type}.
Variable dependenciesOf : Newable -> list Identifier.
Variable dependencyCount : Newable -> Z.

Local Abbreviation build :=
  (@UseClass.build dependenciesOf dependencyCount Value FactoryFn).

Implicit Types (this : UseClass.t) (options : UseClass.BuildOptions)
  (log : list UseClass.ProviderCall).

(** [build] when the local [autowire] is false: only the count is read. *)
Lemma build_not_autowired this options log :
  options_autowire_and this options = false ->
  build this options log =
  if (dependencyCount (UseClass.newable this)
        >? Z.of_nat (length (UseClass.dependencies this)))%Z
  then (inl (UseClass.missing_dependencies (UseClass.newable this)), this,
        log ++ [UseClass.CallGetDependencyCount (UseClass.newable this)])
  else (inr (ClassServiceData (UseClass.newable this)
               (UseClass.dependencies this) (UseClass.autowire this)), this,
        log ++ [UseClass.CallGetDependencyCount (UseClass.newable this)]).
Proof.
  unfold options_autowire_and, UseClass.build,
    UseClass.setDependencyInformationIfNotExist. intros ->. simpl.
  by destruct (_ >? _)%Z.
Qed.

(** [build] when the local [autowire] is true: only the list is asked for. *)
Lemma build_autowired this options log :
  options_autowire_and this options = true ->
  build this options log =
  (inr (ClassServiceData (UseClass.newable this)
          (dependenciesOf (UseClass.newable this)) (UseClass.autowire this)),
   {| UseClass.newable := UseClass.newable this;
      UseClass.dependencies := dependenciesOf (UseClass.newable this);
      UseClass.autowire := UseClass.autowire this |},
   log ++ [UseClass.CallGetDependencies (UseClass.newable this)]).
Proof.
  unfold options_autowire_and, UseClass.build,
    UseClass.setDependencyInformationIfNotExist. by intros ->.
Qed.

(** C4: for a by-class registration given explicit dependencies (which
    switches its auto-wiring off), [build] throws the missing-dependencies
    error, whose message ends with the name of the identifier passed by
    [build] (the class itself), exactly when the list is shorter than the
    parameter count reported by the provider; with a list of the same or of
    greater length it returns the strategy. *)
Theorem build_explicit_arity this0 given options log :
  ((Z.of_nat (length given) < dependencyCount (UseClass.newable this0))%Z <->
   (build (UseClass.withDependencies this0 given) options log).1.1
     = inl (UseClass.missing_dependencies (UseClass.newable this0))) /\
  ((dependencyCount (UseClass.newable this0) <= Z.of_nat (length given))%Z <->
   (build (UseClass.withDependencies this0 given) options log).1.1
     = inr (ClassServiceData (UseClass.newable this0) given false)) /\
  (forall e,
     (build (UseClass.withDependencies this0 given) options log).1.1 = inl e ->
     e = UseClass.missing_dependencies (UseClass.newable this0)) /\
  message (UseClass.missing_dependencies (UseClass.newable this0))
    = String.append
        "Dependencies must be provided for non autowired services. Service with missing dependencies: "
        (ident_name (UseClass.newable this0)).
Proof.
  rewrite build_not_autowired
    by (unfold options_autowire_and; simpl; apply andb_false_r).
  simpl. destruct (_ >? _)%Z eqn:Hgt; simpl.
  - apply Z.gtb_lt in Hgt. repeat split; try done; try lia.
    by intros e [= <-].
  - assert (~ (Z.of_nat (length given)
                < dependencyCount (UseClass.newable this0))%Z).
    { intros Hlt%Z.gtb_lt. congruence. }
    repeat split; try done; try lia.
Qed.

(** C6: [build] asks the provider for the dependency identifiers of the
    class if and only if the [autowire] option of the build and the
    [autowire] flag of the registration both hold, and then stores its
    answer; after [withDependencies] the provider is not asked, and the
    strategy that [build] returns holds the given list unchanged, whatever
    the provider would answer. *)
Theorem build_queries_provider this options log :
  exists calls,
    (build this options log).2 = log ++ calls /\
    (UseClass.CallGetDependencies (UseClass.newable this) ∈ calls <->
     UseClass.options_autowire options = true
     /\ UseClass.autowire this = true) /\
    (forall target, UseClass.CallGetDependencies target ∈ calls ->
       target = UseClass.newable this) /\
    (UseClass.options_autowire options = true ->
     UseClass.autowire this = true ->
     (build this options log).1.1
       = inr (ClassServiceData (UseClass.newable this)
                (dependenciesOf (UseClass.newable this)) true)) /\
    (forall this0 given, this = UseClass.withDependencies this0 given ->
       (forall target, UseClass.CallGetDependencies target ∉ calls) /\
       (build this options log).1.2 = this /\
       forall data, (build this options log).1.1 = inr data ->
         data = ClassServiceData (UseClass.newable this0) given false).
Proof.
  destruct (options_autowire_and this options) eqn:Hauto.
  - exists [UseClass.CallGetDependencies (UseClass.newable this)].
    rewrite (build_autowired _ _ _ Hauto). simpl.
    apply andb_true_iff in Hauto as [Hopt Hthis].
    split; [done|]. split; [|split; [|split]].
    + split; [done|]. intros _. apply list_elem_of_here.
    + by intros target [= ->]%list_elem_of_singleton.
    + intros _ _. by rewrite Hthis.
    + intros this0 given ->. done.
  - exists [UseClass.CallGetDependencyCount (UseClass.newable this)].
    rewrite (build_not_autowired _ _ _ Hauto).
    assert (Hno : forall target,
              UseClass.CallGetDependencies target
              ∉ [UseClass.CallGetDependencyCount (UseClass.newable this)]).
    { by intros target [=]%list_elem_of_singleton. }
    split; [by destruct (_ >? _)%Z|]. split; [|split; [|split]].
    + split; [by intros ?%Hno|].
      intros [Hopt Hthis]. unfold options_autowire_and in Hauto.
      by rewrite Hopt, Hthis in Hauto.
    + by intros target ?%Hno.
    + intros Hopt Hthis. unfold options_autowire_and in Hauto.
      by rewrite Hopt, Hthis in Hauto.
    + intros this0 given ->. split; [done|]. simpl.
      destruct (_ >? _)%Z; simpl; [done|].
      split; [done|]. by intros data [= <-].
Qed.

(** C10: for a by-class registration on which [withDependencies] was never
    called, [build] with the [autowire] option false throws the
    missing-dependencies error whenever the provider reports a parameter
    count above zero, although no explicit list was given; the provider is
    not asked for the identifiers. *)
Theorem build_unconfigured_without_autowire class log :
  (0 < dependencyCount class)%Z ->
  build (UseClass.new class) (UseClass.MkBuildOptions false) log
  = (inl (UseClass.missing_dependencies class), UseClass.new class,
     log ++ [UseClass.CallGetDependencyCount class]).
Proof.
  intros Hcount. rewrite build_not_autowired by done.
  change (UseClass.newable (UseClass.new class)) with class.
  change (Z.of_nat (length (UseClass.dependencies (UseClass.new class))))
    with 0%Z.
  apply Z.gtb_lt in Hcount. by rewrite Hcount.
Qed.

End UseClassFacts.

Example demo_build_autowired :
  @UseClass.build Demo.dependenciesOf Demo.dependencyCount Demo.JsValue nat
    (UseClass.new Demo.C) (UseClass.MkBuildOptions true) []
  = (inr (ClassServiceData Demo.C [Demo.B; Demo.A] true),
     UseClass.MkUseClass Demo.C [Demo.B; Demo.A] true,
     [UseClass.CallGetDependencies Demo.C]).
Proof. reflexivity. Qed.

Example demo_build_explicit_longer :
  (@UseClass.build Demo.dependenciesOf Demo.dependencyCount Demo.JsValue nat
     (UseClass.withDependencies (UseClass.new Demo.B) [Demo.A; Demo.Mailer])
     (UseClass.MkBuildOptions true) []).1.1
  = inr (ClassServiceData Demo.B [Demo.A; Demo.Mailer] false).
Proof. reflexivity. Qed.

Example demo_build_explicit_shorter :
  (@UseClass.build Demo.dependenciesOf Demo.dependencyCount Demo.JsValue nat
     (UseClass.withDependencies (UseClass.new Demo.C) [Demo.A])
     (UseClass.MkBuildOptions true) []).1.1
  = inl (MkError
      "Dependencies must be provided for non autowired services. Service with missing dependencies: C").
Proof. reflexivity. Qed.

(** ** The graph validation *)

Section ChainFacts.

Context {A : Type} (R : A -> A -> Prop).

Lemma chain_cons_inv x l : chain R (x :: l) -> chain R l.
Proof. destruct l as [|y l]; simpl; [done|]. by intros [_ ?]. Qed.

Lemma chain_app_inv_r l1 l2 : chain R (l1 ++ l2) -> chain R l2.
Proof.
  induction l1 as [|x l1 IH]; [done|].
  intros H. apply IH. by apply (chain_cons_inv x).
Qed.

Lemma chain_snoc l x y : chain R (l ++ [x]) -> R x y -> chain R ((l ++ [x]) ++ [y]).
Proof.
  induction l as [|z l IH]; simpl; [done|].
  intros H Hxy. destruct l as [|z' l]; simpl in *.
  - by destruct H.
  - destruct H as [Hz H]. split; [done|]. by apply IH.
Qed.

(** Every element of a chain but the last has a successor. *)
Lemma chain_sources l y x : chain R (l ++ [y]) -> x ∈ l -> exists z, R x z.
Proof.
  induction l as [|x' l IH]; intros H Hx; [by apply not_elem_of_nil in Hx|].
  apply elem_of_cons in Hx as [->|Hx].
  - destruct l as [|z l]; simpl in H; destruct H; eauto.
  - apply IH; [|done]. by apply (chain_cons_inv x').
Qed.

(** A chain links its first element to its last one. *)
Lemma chain_tc x l y : chain R (x :: l ++ [y]) -> tc R x y.
Proof.
  revert x. induction l as [|z l IH]; intros x; simpl.
  - intros [H _]. by apply tc_once.
  - intros [H Hrest]. eapply tc_l; [done|]. by apply IH.
Qed.

Lemma is_cycle_tc cycle : is_cycle R cycle -> exists x, tc R x x.
Proof.
  intros [(x & middle & ->) H]. exists x. by apply (chain_tc x middle x).
Qed.

End ChainFacts.

Lemma cycle_from_elem node trail :
  node ∈ trail ->
  exists before after,
    trail = before ++ node :: after
    /\ Builder.cycle_from node trail = node :: after.
Proof.
  induction trail as [|x trail IH]; intros Hin;
    [by apply not_elem_of_nil in Hin|].
  simpl. destruct (decide (x = node)) as [->|Hne].
  - by exists [], trail.
  - apply elem_of_cons in Hin as [->|Hin]; [done|].
    destruct (IH Hin) as (before & after & -> & Hc).
    by exists (x :: before), after.
Qed.

Lemma NoDup_length_le_size {V : Type} (l : list Identifier)
    (m : gmap Identifier V) :
  NoDup l -> (forall x, x ∈ l -> is_Some (m !! x)) -> length l <= size m.
Proof.
  intros Hnd Hin. rewrite <- size_dom.
  rewrite <- (size_list_to_set (C := gset Identifier) l Hnd).
  apply subseteq_size. intros x Hx%elem_of_list_to_set.
  by apply elem_of_dom, Hin.
Qed.

Section ValidationFacts.

Context {Value FactoryFn : Type}.
Variable services : gmap Identifier (ServiceData Value FactoryFn).

Local Abbreviation R := (class_edge services).

Implicit Types (trail nodes : list Identifier) (node x y : Identifier)
  (marks : gmap Identifier Builder.Colour).

Lemma class_edge_registered x y : R x y -> is_Some (services !! x).
Proof.
  unfold class_edge, Builder.class_dependencies.
  destruct (services !! x); [by eexists|]. by intros ?%not_elem_of_nil.
Qed.

Lemma class_edge_lookup x y :
  R x y <-> exists class dependencies autowire,
              services !! x = Some (ClassServiceData class dependencies autowire)
              /\ y ∈ dependencies.
Proof.
  unfold class_edge, Builder.class_dependencies. split.
  - destruct (services !! x) as [[class deps aw|i deps|f deps]|];
      try by intros ?%not_elem_of_nil.
    intros Hy. by exists class, deps, aw.
  - by intros (class & deps & aw & -> & Hy).
Qed.

Lemma marks_ok_done_tc trail marks x y :
  marks_ok services trail marks ->
  marks !! x = Some Builder.Done -> tc R x y -> marks !! y = Some Builder.Done.
Proof.
  intros (_ & _ & Hclosed & _) Hx Hxy. induction Hxy; eauto.
Qed.

Lemma marks_ok_push trail marks node :
  marks_ok services trail marks -> marks !! node = None ->
  marks_ok services (trail ++ [node]) (<[node := Builder.InProgress]> marks).
Proof.
  intros (Hnd & Hin & Hclosed & Hacyc) Hnode.
  assert (Hfresh : node ∉ trail).
  { intros Hn%Hin. congruence. }
  split; [|split; [|split]].
  - apply NoDup_app. split; [done|]. split; [|apply NoDup_singleton].
    intros x Hx ->%list_elem_of_singleton. done.
  - intros x. rewrite elem_of_app, list_elem_of_singleton.
    destruct (decide (x = node)) as [->|Hne].
    + rewrite lookup_insert_eq. split; [by right|done].
    + rewrite lookup_insert_ne by done. rewrite Hin.
      split; [by left|]. by intros [?|?].
  - intros x y. destruct (decide (x = node)) as [->|Hne].
    + by rewrite lookup_insert_eq.
    + rewrite lookup_insert_ne by done. intros Hx Hxy.
      assert (Hy := Hclosed x y Hx Hxy).
      rewrite lookup_insert_ne; [done|]. congruence.
  - intros x. destruct (decide (x = node)) as [->|Hne].
    + by rewrite lookup_insert_eq.
    + rewrite lookup_insert_ne by done. apply Hacyc.
Qed.

Lemma marks_ok_pop trail marks node :
  marks_ok services (trail ++ [node]) marks ->
  (forall y, R node y -> marks !! y = Some Builder.Done) ->
  marks_ok services trail (<[node := Builder.Done]> marks).
Proof.
  intros Hok Hchildren.
  assert (Hok' := Hok). destruct Hok' as (Hnd & Hin & Hclosed & Hacyc).
  apply NoDup_app in Hnd as (Hnd & Hfresh & _).
  assert (Hnode : marks !! node = Some Builder.InProgress).
  { apply Hin, elem_of_app. right. by apply list_elem_of_singleton. }
  split; [done|]. split; [|split].
  - intros x. destruct (decide (x = node)) as [->|Hne].
    + rewrite lookup_insert_eq. split; [done|].
      intros Hx. destruct (Hfresh node Hx). by apply list_elem_of_singleton.
    + rewrite lookup_insert_ne by done. rewrite Hin, elem_of_app.
      rewrite list_elem_of_singleton. split; [by intros [?|?]|by left].
  - intros x y Hx Hxy.
    destruct (decide (y = node)) as [->|Hy]; [by rewrite lookup_insert_eq|].
    rewrite lookup_insert_ne by done.
    destruct (decide (x = node)) as [->|Hne]; [by apply Hchildren|].
    rewrite lookup_insert_ne in Hx by done. eauto.
  - intros x Hx Hloop. destruct (decide (x = node)) as [->|Hne].
    + assert (Hdone : marks !! node = Some Builder.Done); [|congruence].
      inversion Hloop as [? ? Hstep|? y ? Hstep Hrest]; subst.
      * by apply Hchildren.
      * eapply marks_ok_done_tc; [exact Hok| |exact Hrest].
        by apply Hchildren.
    + rewrite lookup_insert_ne in Hx by done. by apply (Hacyc x).
Qed.

(** The traversals of a list of nodes, given what each of them guarantees. *)
Lemma visit_all_ok visit1 trail nodes :
  (forall node marks, node ∈ nodes -> marks_ok services trail marks ->
     visit_ok services trail marks [node] (visit1 node marks)) ->
  forall marks, marks_ok services trail marks ->
    visit_ok services trail marks nodes (Builder.visit_all visit1 nodes marks).
Proof.
  induction nodes as [|node nodes IH]; intros Hvisit marks Hok; simpl.
  - split; [done|]. split; [|done]. by intros node ?%not_elem_of_nil.
  - assert (H1 := Hvisit node marks (list_elem_of_here _ _) Hok).
    destruct (visit1 node marks) as [[cycle|marks1]|]; [done| |done].
    destruct H1 as (Hok1 & Hdone1 & Hmono1).
    assert (H2 := IH (fun n m Hn => Hvisit n m (list_elem_of_further _ _ _ Hn))
                    marks1 Hok1).
    destruct (Builder.visit_all visit1 nodes marks1) as [[cycle|marks2]|];
      [done| |done].
    destruct H2 as (Hok2 & Hdone2 & Hmono2).
    split; [done|]. split; [|by eauto].
    intros n [->|Hn]%elem_of_cons; [|by eauto].
    apply Hmono2, Hdone1, list_elem_of_here.
Qed.

(** One traversal: it finishes within the fuel left, reports only real loops
    and otherwise leaves its node done. *)
Lemma visit_is_ok fuel :
  forall trail node marks,
    chain R (trail ++ [node]) ->
    marks_ok services trail marks ->
    size services < fuel + length trail ->
    visit_ok services trail marks [node]
      (Builder.visit fuel services trail node marks).
Proof.
  induction fuel as [|fuel IH]; intros trail node marks Hchain Hok Hfuel.
  - exfalso. destruct Hok as (Hnd & _).
    assert (length trail <= size services); [|lia].
    apply NoDup_length_le_size; [done|].
    intros x Hx. destruct (chain_sources R trail node x Hchain Hx) as [z Hz].
    by apply (class_edge_registered x z).
  - simpl. destruct (marks !! node) as [[|]|] eqn:Hnode.
    + (* in progress: the trail closes a loop *)
      destruct Hok as (_ & Hin & _).
      apply Hin in Hnode.
      destruct (cycle_from_elem node trail Hnode) as (before & after & -> & ->).
      split; [by exists node, after|].
      rewrite <- app_assoc in Hchain. apply chain_app_inv_r in Hchain.
      by rewrite <- app_comm_cons in Hchain.
    + (* done already *)
      split; [done|]. split; [|done].
      by intros n ->%list_elem_of_singleton.
    + (* unvisited *)
      assert (Hpush := marks_ok_push trail marks node Hok Hnode).
      assert (Hall := visit_all_ok
                (Builder.visit fuel services (trail ++ [node]))
                (trail ++ [node]) (Builder.class_dependencies services node)).
      specialize (Hall (fun n m Hn Hm =>
        IH (trail ++ [node]) n m (chain_snoc R trail node n Hchain Hn) Hm
           ltac:(rewrite length_app; simpl; lia))
        _ Hpush).
      destruct (Builder.visit_all _ _ _) as [[cycle|marks']|]; [done| |done].
      destruct Hall as (Hok' & Hdone' & Hmono').
      split; [by apply marks_ok_pop|]. split.
      * intros n ->%list_elem_of_singleton. by rewrite lookup_insert_eq.
      * intros x Hx. assert (x <> node) by congruence.
        rewrite lookup_insert_ne by done. apply Hmono'.
        by rewrite lookup_insert_ne.
Qed.

Lemma marks_ok_empty : marks_ok services [] ∅.
Proof.
  split; [apply NoDup_nil_2|]. split; [|split].
  - intros x. rewrite lookup_empty. split; [done|]. by intros ?%not_elem_of_nil.
  - intros x y. by rewrite lookup_empty.
  - intros x. by rewrite lookup_empty.
Qed.

(** The whole check finishes, and its verdict is right both ways. *)
Lemma detectCycle_ok :
  match Builder.detectCycle services with
  | None => False
  | Some (Builder.CycleFound cycle) => is_cycle R cycle
  | Some (Builder.Marked _) => forall x, ~ tc R x x
  end.
Proof.
  unfold Builder.detectCycle.
  assert (Hall := visit_all_ok
            (Builder.visit (S (size services)) services []) []
            (fst <$> map_to_list services)
            (fun n m _ Hm => visit_is_ok (S (size services)) [] n m I Hm
                               ltac:(simpl; lia))
            ∅ marks_ok_empty).
  destruct (Builder.visit_all _ _ _) as [[cycle|marks]|]; [done| |done].
  destruct Hall as (Hok & Hdone & _).
  intros x Hloop.
  assert (Hx : is_Some (services !! x)).
  { inversion Hloop; subst; by eapply class_edge_registered. }
  destruct Hx as [data Hx].
  destruct Hok as (_ & _ & _ & Hacyc). apply (Hacyc x); [|done].
  apply Hdone, list_elem_of_fmap. exists (x, data).
  split; [done|]. by apply elem_of_map_to_list.
Qed.

Lemma detectCycle_complete :
  (exists x, tc R x x) ->
  exists cycle, Builder.detectCycle services = Some (Builder.CycleFound cycle)
                /\ is_cycle R cycle.
Proof.
  intros [x Hx]. assert (H := detectCycle_ok).
  destruct (Builder.detectCycle services) as [[cycle|marks]|]; [|by destruct (H x)|done].
  by exists cycle.
Qed.

Lemma checkCompleteness_elem dependant missing :
  Builder.UnregisteredDependency dependant missing
    ∈ Builder.checkCompleteness services
  <-> R dependant missing /\ services !! missing = None.
Proof.
  unfold Builder.checkCompleteness. rewrite list_elem_of_In, in_concat.
  rewrite class_edge_lookup. split.
  - intros (errors & Hin & Herr).
    apply list_elem_of_In, list_elem_of_fmap in Hin
      as ([a [class deps aw|i deps|f deps]] & -> & Ha); simpl in Herr;
      try done.
    apply list_elem_of_In, list_elem_of_fmap in Herr as (d & [= -> ->] & Hd).
    apply list_elem_of_filter in Hd as [Hnone Hd].
    apply elem_of_map_to_list in Ha. split; [|done].
    by exists class, deps, aw.
  - intros [(class & deps & aw & Ha & Hd) Hnone].
    exists (Builder.missing_of services
              (dependant, ClassServiceData class deps aw)).
    split.
    + apply list_elem_of_In, list_elem_of_fmap_2. by apply elem_of_map_to_list.
    + simpl. apply list_elem_of_In, list_elem_of_fmap_2.
      by apply list_elem_of_filter.
Qed.

End ValidationFacts.

(** ** The builder *)

Section BuilderFacts.

Context {Value FactoryFn : Type}.
Variable dependenciesOf : Newable -> list Identifier.
Variable dependencyCount : Newable -> Z.

Local Abbreviation finalize :=
  (@Builder.finalize Value FactoryFn dependenciesOf dependencyCount).
Local Abbreviation build :=
  (@Builder.build Value FactoryFn dependenciesOf dependencyCount).
Local Abbreviation buildStrategy :=
  (@Builder.buildStrategy Value FactoryFn dependenciesOf dependencyCount).

Implicit Types (options : UseClass.BuildOptions)
  (registry : gmap Identifier (Builder.RegistrationStrategy Value FactoryFn))
  (services : gmap Identifier (ServiceData Value FactoryFn))
  (log : list UseClass.ProviderCall).

(** Instances and factories are built without dependencies. *)
Lemma buildStrategy_leaf options strategy log data log' :
  buildStrategy options strategy log = (inr data, log') ->
  sd_type data <> TClass -> sd_dependencies data = [].
Proof.
  destruct strategy as [use|value|fn]; simpl.
  - unfold UseClass.build.
    destruct (UseClass.setDependencyInformationIfNotExist _ _ _ _ _ _)
      as [[[e|] this'] log1]; [done|].
    by intros [= <- _].
  - by intros [= <- _].
  - by intros [= <- _].
Qed.

Lemma finalize_dom options pending services0 log services log' :
  finalize options pending services0 log = (inr services, log') ->
  dom services = dom services0 ∪ list_to_set pending.*1.
Proof.
  revert services0 log.
  induction pending as [|[id strategy] pending IH]; intros services0 log; simpl.
  - intros [= <- _]. symmetry. apply (union_empty_r_L (dom services0)).
  - destruct (buildStrategy options strategy log) as [[e|data] log1]; [done|].
    intros ->%IH. rewrite dom_insert_L.
    change (list_to_set ((id, strategy) :: pending).*1)
      with ({[id]} ∪ list_to_set (C := gset Identifier) pending.*1).
    by rewrite (union_comm_L {[id]} (dom services0)), <- union_assoc_L.
Qed.

Lemma finalize_leaves options pending services0 log services log' :
  finalize options pending services0 log = (inr services, log') ->
  (forall id data, services0 !! id = Some data ->
     sd_type data <> TClass -> sd_dependencies data = []) ->
  forall id data, services !! id = Some data ->
    sd_type data <> TClass -> sd_dependencies data = [].
Proof.
  revert services0 log.
  induction pending as [|[id strategy] pending IH]; intros services0 log; simpl.
  - by intros [= <- _].
  - destruct (buildStrategy options strategy log) as [[e|data] log1] eqn:Hb;
      [done|].
    intros Hrest Hleaf. apply (IH _ _ Hrest).
    intros id' data'. destruct (decide (id' = id)) as [->|Hne].
    + rewrite lookup_insert_eq. intros [= <-].
      by apply (buildStrategy_leaf _ _ _ _ _ Hb).
    + rewrite lookup_insert_ne by done. apply Hleaf.
Qed.

Lemma registry_keys options registry log services log' id :
  finalize options (map_to_list registry) ∅ log = (inr services, log') ->
  services !! id = None <-> registry !! id = None.
Proof.
  intros Hdom%finalize_dom. rewrite <- !not_elem_of_dom, Hdom.
  rewrite dom_empty_L, union_empty_l_L.
  assert (Hkeys : id ∈ (map_to_list registry).*1 <-> id ∈ dom registry).
  { rewrite elem_of_dom, list_elem_of_fmap. split.
    - intros ([k' v] & -> & Hin). apply elem_of_map_to_list in Hin. by eexists.
    - intros [v Hv]. exists (id, v). split; [done|].
      by apply elem_of_map_to_list. }
  by rewrite elem_of_list_to_set, Hkeys.
Qed.

(** [build] once the strategies are built: both checks report. *)
Lemma build_reports options registry log services log' error :
  finalize options (map_to_list registry) ∅ log = (inr services, log') ->
  (forall traversal, Builder.detectCycle services = Some traversal ->
     error ∈ Builder.checkCompleteness services
               ++ Builder.cycle_errors traversal) ->
  exists errors,
    build options registry log = (Some (Builder.Failed errors), log')
    /\ error ∈ errors.
Proof.
  intros Hfin Herr. unfold Builder.build. rewrite Hfin.
  assert (Hok := detectCycle_ok services).
  destruct (Builder.detectCycle services) as [traversal|]; [|done].
  specialize (Herr traversal eq_refl).
  destruct (Builder.checkCompleteness services
              ++ Builder.cycle_errors traversal) as [|e errors] eqn:Hl.
  - by apply not_elem_of_nil in Herr.
  - by exists (e :: errors).
Qed.

(** C1: when the strategies of a registration set build and their
    dependency graph has a loop (of any length, a self-dependency included),
    [build] returns no container: it fails, and its report holds a
    circular-dependency error whose list of identifiers is a loop of the
    graph, starting and ending at the same identifier. *)
Theorem build_rejects_cycles options registry log services log' :
  finalize options (map_to_list registry) ∅ log = (inr services, log') ->
  (exists x, tc (class_edge services) x x) ->
  exists errors cycle,
    build options registry log = (Some (Builder.Failed errors), log')
    /\ Builder.CircularDependency cycle ∈ errors
    /\ is_cycle (class_edge services) cycle.
Proof.
  intros Hfin Hloop.
  destruct (detectCycle_complete services Hloop) as (cycle & Hdetect & Hcycle).
  destruct (build_reports options registry log services log'
              (Builder.CircularDependency cycle) Hfin) as (errors & Hb & Hin).
  - intros traversal. rewrite Hdetect. intros [= <-].
    apply elem_of_app. right. apply list_elem_of_here.
  - by exists errors, cycle.
Qed.

(** C3: when the strategies of a registration set build and the dependency
    list of a by-class strategy holds an identifier that is not a key of the
    registry, [build] returns no container: it fails, and its report holds
    an unregistered-dependency error with the dependant and the missing
    identifier. *)
Theorem build_rejects_unregistered options registry log services log'
    dependant class dependencies autowire missing :
  finalize options (map_to_list registry) ∅ log = (inr services, log') ->
  services !! dependant = Some (ClassServiceData class dependencies autowire) ->
  missing ∈ dependencies ->
  registry !! missing = None ->
  exists errors,
    build options registry log = (Some (Builder.Failed errors), log')
    /\ Builder.UnregisteredDependency dependant missing ∈ errors.
Proof.
  intros Hfin Hdep Hin Hnone.
  apply (build_reports options registry log services log' _ Hfin).
  intros traversal _. apply elem_of_app. left.
  apply checkCompleteness_elem. split.
  - apply class_edge_lookup. by exists class, dependencies, autowire.
  - by apply (registry_keys options registry log services log' missing Hfin).
Qed.

End BuilderFacts.

(** ** Three registration sets, built *)

Example demo_build_valid :
  (Builder.build Demo.dependenciesOf Demo.dependencyCount
     (UseClass.MkBuildOptions true) Demo.valid_registry []).1
  = Some (Builder.Built Demo.valid_container).
Proof. vm_compute. reflexivity. Qed.

Example demo_get_built :
  Container.get Demo.construct Demo.invoke 3 Demo.valid_container Demo.C 0%nat
  = Some (Returned (Demo.Obj 3 Demo.C
                      [Demo.Obj 1 Demo.B [Demo.Obj 0 Demo.A []];
                       Demo.Obj 2 Demo.A []]) 4%nat)
  /\ Container.get Demo.construct Demo.invoke 1 Demo.valid_container
       Demo.Clock 4%nat
     = Some (Returned (Demo.Made 4 0) 5%nat).
Proof. split; vm_compute; reflexivity. Qed.

Example demo_build_cyclic :
  (Builder.build Demo.dependenciesOf Demo.dependencyCount
     (UseClass.MkBuildOptions true) Demo.cyclic_registry []).1
  = Some (Builder.Failed
            [Builder.CircularDependency [Demo.A; Demo.B; Demo.A]]).
Proof. vm_compute. reflexivity. Qed.

Example demo_build_selfish :
  (Builder.build Demo.dependenciesOf Demo.dependencyCount
     (UseClass.MkBuildOptions true) Demo.selfish_registry []).1
  = Some (Builder.Failed [Builder.CircularDependency [Demo.A; Demo.A]]).
Proof. vm_compute. reflexivity. Qed.

(** The arity error carries the name of the class, not of the contract. *)
Example demo_build_short :
  (Builder.build Demo.dependenciesOf Demo.dependencyCount
     (UseClass.MkBuildOptions true) Demo.short_registry []).1
  = Some (Builder.Failed [Builder.DependencyArityMismatch (MkError
      "Dependencies must be provided for non autowired services. Service with missing dependencies: AcmeMailer")]).
Proof. vm_compute. reflexivity. Qed.

Example demo_build_dangling :
  (Builder.build Demo.dependenciesOf Demo.dependencyCount
     (UseClass.MkBuildOptions true) Demo.dangling_registry []).1
  = Some (Builder.Failed [Builder.UnregisteredDependency Demo.A Demo.B]).
Proof. vm_compute. reflexivity. Qed.

Example demo_finalize_cyclic :
  Builder.finalize Demo.dependenciesOf Demo.dependencyCount
    (UseClass.MkBuildOptions true) (map_to_list Demo.cyclic_registry) ∅ []
  = (inr Demo.cyclic_services,
     [UseClass.CallGetDependencyCount Demo.A;
      UseClass.CallGetDependencyCount Demo.B]).
Proof. vm_compute. reflexivity. Qed.

(** ** From the builder to the container *)

Section BuiltContainers.

Context {Value World FactoryFn : Type}.
Variable construct : Newable -> list Value -> World -> Completion World Value.
Variable invoke : FactoryFn -> World -> Completion World Value.
Variable dependenciesOf : Newable -> list Identifier.
Variable dependencyCount : Newable -> Z.

(** A container that [build] returns has the two guarantees, and [get]
    terminates on it for every identifier. *)
Lemma built_container_terminates options
    (registry : gmap Identifier (Builder.RegistrationStrategy Value FactoryFn))
    log container log' :
  Builder.build dependenciesOf dependencyCount options registry log
    = (Some (Builder.Built container), log') ->
  class_complete container /\ acyclic container /\
  forall id w, exists r, forall fuel,
    size (Container.services container) < fuel ->
    Container.get construct invoke fuel container id w = Some r.
Proof.
  unfold Builder.build.
  destruct (Builder.finalize _ _ _ _ _ _) as [[e|services] log1] eqn:Hfin;
    [done|].
  assert (Hok := detectCycle_ok services).
  destruct (Builder.detectCycle services) as [traversal|]; [|done].
  destruct (Builder.checkCompleteness services
              ++ Builder.cycle_errors traversal) as [|e errors] eqn:Herrors;
    [|done].
  intros [= <- _]. apply app_eq_nil in Herrors as [Hcomplete Hcycle].
  destruct traversal as [cycle|marks]; [done|].
  assert (Hacyc : acyclic (Container.MkContainer services)).
  { apply leaf_entries_acyclic; [|done].
    apply (finalize_leaves _ _ _ _ _ _ _ _ Hfin).
    intros id data. by rewrite lookup_empty. }
  split; [|split; [done|by apply get_finishes]].
  intros a class deps aw d Ha Hd. simpl in *.
  destruct (services !! d) as [data|] eqn:Hnone; [by eexists|].
  assert (Hin : Builder.UnregisteredDependency a d
                ∈ Builder.checkCompleteness services).
  { apply checkCompleteness_elem. split; [|done].
    apply class_edge_lookup. by exists class, deps, aw. }
  rewrite Hcomplete in Hin. by apply not_elem_of_nil in Hin.
Qed.

End BuiltContainers.

(** ** The properties at work on the small host *)

Lemma demo_chain_edges a b :
  depends_on Demo.chain_container a b ->
  Pos.to_nat (ident_ref b) < Pos.to_nat (ident_ref a).
Proof.
  intros (data & Ha & Hb). simpl in Ha. unfold Demo.chain_services in Ha.
  rewrite !lookup_insert_Some, lookup_empty in Ha.
  destruct Ha as [[<- <-]|[_ [[<- <-]|[_ [[<- <-]|[_ [[<- <-]|[_ ?]]]]]]]];
    simpl in Hb; try done.
  - by apply not_elem_of_nil in Hb.
  - apply list_elem_of_singleton in Hb as ->. simpl. lia.
  - apply elem_of_cons in Hb as [->|Hb]; [simpl; lia|].
    apply list_elem_of_singleton in Hb as ->. simpl. lia.
  - by apply not_elem_of_nil in Hb.
Qed.

Lemma demo_chain_acyclic : acyclic Demo.chain_container.
Proof.
  apply (acyclic_by_rank _ (fun i => Pos.to_nat (ident_ref i))).
  apply demo_chain_edges.
Qed.

Lemma demo_chain_complete : class_complete Demo.chain_container.
Proof.
  intros a class deps aw d Ha Hd. simpl in Ha. unfold Demo.chain_services in Ha.
  rewrite !lookup_insert_Some, lookup_empty in Ha.
  destruct Ha as [[<- [= <- <- <-]]|[_ [[<- [= <- <- <-]]
                    |[_ [[<- [= <- <- <-]]|[_ [[<- [=]]|[_ ?]]]]]]]]; try done.
  - by apply not_elem_of_nil in Hd.
  - apply list_elem_of_singleton in Hd as ->. by eexists.
  - apply elem_of_cons in Hd as [->|Hd]; [by eexists|].
    apply list_elem_of_singleton in Hd as ->. by eexists.
Qed.

Lemma demo_odd_acyclic : acyclic Demo.odd_container.
Proof.
  apply (acyclic_by_rank _
           (fun i => if decide (i = Demo.A) then 1
                     else if decide (i = Demo.C) then 1 else 0)).
  intros a b (data & Ha & Hb). simpl in Ha.
  rewrite !lookup_insert_Some, lookup_empty in Ha.
  destruct Ha as [[<- <-]|[_ [[<- <-]|[_ [[<- <-]|[_ ?]]]]]];
    simpl in Hb; try done.
  - apply list_elem_of_singleton in Hb as ->. simpl. lia.
  - apply elem_of_cons in Hb as [->|Hb]; [simpl; lia|].
    apply list_elem_of_singleton in Hb as ->. simpl. lia.
  - by apply not_elem_of_nil in Hb.
Qed.

Lemma get_terminates_witness :
  class_complete Demo.chain_container /\ acyclic Demo.chain_container /\
  (forall id, sn (depends_on Demo.chain_container) id) /\
  (forall id w, exists r, forall fuel,
     size (Container.services Demo.chain_container) < fuel ->
     Container.get Demo.construct Demo.invoke fuel Demo.chain_container id w
       = Some r).
Proof.
  split; [exact demo_chain_complete|]. split; [exact demo_chain_acyclic|].
  exact (get_terminates Demo.construct Demo.invoke Demo.chain_container
           demo_chain_complete demo_chain_acyclic).
Defined.

Lemma get_unregistered_lookup_witness :
  Container.services Demo.chain_container !! Demo.AcmeMailer = None /\
  Container.get Demo.construct Demo.invoke 1 Demo.chain_container
    Demo.AcmeMailer 0%nat
  = Some (Thrown (MkError "Service not registered for: AcmeMailer") 0%nat) /\
  Container.findServiceDataOrThrow Demo.chain_container Demo.Mailer
  = inr (InstanceServiceData (Demo.Num 7) []).
Proof.
  assert (Habsent :
    Container.services Demo.chain_container !! Demo.AcmeMailer = None)
    by (vm_compute; reflexivity).
  assert (Hpresent :
    Container.services Demo.chain_container !! Demo.Mailer
    = Some (InstanceServiceData (Demo.Num 7) []))
    by (vm_compute; reflexivity).
  split; [exact Habsent|].
  destruct (get_unregistered_lookup Demo.construct Demo.invoke
              Demo.chain_container Demo.AcmeMailer) as (_ & _ & Hthrow & _).
  split; [exact (Hthrow Habsent 0%nat 0%nat)|].
  destruct (get_unregistered_lookup Demo.construct Demo.invoke
              Demo.chain_container Demo.Mailer) as (_ & _ & _ & Hfound & _).
  exact (proj1 (Hfound _ Hpresent)).
Defined.

Lemma get_class_order_witness :
  Container.services Demo.swapped_container !! Demo.A
    = Some (ClassServiceData Demo.A [Demo.Mailer; Demo.Clock] false) /\
  Container.get Demo.construct Demo.invoke 2 Demo.swapped_container Demo.A 0%nat
    = Some (Returned (Demo.Obj 0 Demo.A [Demo.Num 7; Demo.Num 9]) 1%nat) /\
  Container.get Demo.construct Demo.invoke 2 Demo.swapped_container Demo.B 0%nat
    = Some (Returned (Demo.Obj 0 Demo.B [Demo.Num 9; Demo.Num 7]) 1%nat).
Proof.
  assert (HA : Container.services Demo.swapped_container !! Demo.A
               = Some (ClassServiceData Demo.A [Demo.Mailer; Demo.Clock] false))
    by (vm_compute; reflexivity).
  assert (HB : Container.services Demo.swapped_container !! Demo.B
               = Some (ClassServiceData Demo.B [Demo.Clock; Demo.Mailer] false))
    by (vm_compute; reflexivity).
  split; [exact HA|].
  destruct (get_class_order Demo.construct Demo.invoke Demo.swapped_container
              Demo.A Demo.A [Demo.Mailer; Demo.Clock] false HA 1 0%nat)
    as (_ & _ & Hpure).
  destruct (Hpure Demo.swapped_value) as [Hfirst Hsecond].
  { intros d w0 [->|Hd]%elem_of_cons; [vm_compute; reflexivity|].
    apply list_elem_of_singleton in Hd as ->. vm_compute; reflexivity. }
  split; [exact Hfirst|].
  exact (proj1 (Hsecond Demo.B Demo.B [Demo.Clock; Demo.Mailer] false HB
                  (perm_swap _ _ _))).
Defined.

Lemma get_instance_identity_witness :
  Container.services Demo.chain_container !! Demo.Mailer
    = Some (InstanceServiceData (Demo.Num 7) []) /\
  Container.get Demo.construct Demo.invoke 1 Demo.chain_container
    Demo.Mailer 0%nat = Some (Returned (Demo.Num 7) 0%nat) /\
  Container.get Demo.construct Demo.invoke 3 Demo.chain_container
    Demo.Mailer 5%nat = Some (Returned (Demo.Num 7) 5%nat).
Proof.
  assert (H : Container.services Demo.chain_container !! Demo.Mailer
              = Some (InstanceServiceData (Demo.Num 7) []))
    by (vm_compute; reflexivity).
  split; [exact H|].
  destruct (get_instance_identity Demo.construct Demo.invoke
              Demo.chain_container Demo.Mailer (Demo.Num 7) [] H)
    as [Hsame _].
  split; [exact (Hsame eq_refl 0%nat 0%nat)|exact (Hsame eq_refl 2%nat 5%nat)].
Defined.

Lemma get_resolves_before_type_witness :
  Container.services Demo.odd_container !! Demo.A
    = Some (InstanceServiceData (Demo.Num 1) [Demo.B]) /\
  sd_type (InstanceServiceData (FactoryFn := nat) (Demo.Num 1) [Demo.B])
    <> TClass /\
  Container.services Demo.odd_container !! Demo.B = None /\
  exists e w',
    Container.get Demo.construct Demo.invoke 4 Demo.odd_container Demo.A 0%nat
    = Some (Thrown e w').
Proof.
  assert (H : Container.services Demo.odd_container !! Demo.A
              = Some (InstanceServiceData (Demo.Num 1) [Demo.B]))
    by (vm_compute; reflexivity).
  assert (Htype : sd_type (InstanceServiceData (FactoryFn := nat)
                             (Demo.Num 1) [Demo.B]) <> TClass)
    by (simpl; discriminate).
  assert (Hnone : Container.services Demo.odd_container !! Demo.B = None)
    by (vm_compute; reflexivity).
  split; [exact H|]. split; [exact Htype|]. split; [exact Hnone|].
  destruct (get_resolves_before_type Demo.construct Demo.invoke
              Demo.odd_container Demo.A _ H Htype) as (_ & _ & Habsent).
  destruct (Habsent Demo.B (list_elem_of_here _ _) Hnone)
    as (_ & _ & _ & Hthrows).
  apply (Hthrows demo_odd_acyclic 4 0%nat).
  vm_compute. lia.
Defined.

Example demo_get_odd_instance :
  Container.get Demo.construct Demo.invoke 2 Demo.odd_container Demo.A 0%nat
  = Some (Thrown (MkError "Service not registered for: B") 0%nat).
Proof. vm_compute. reflexivity. Qed.

Example demo_get_odd_factory :
  Container.get Demo.construct Demo.invoke 2 Demo.odd_container Demo.C 0%nat
  = Some (Thrown (MkError "Service not registered for: B") 0%nat).
Proof. vm_compute. reflexivity. Qed.

Lemma build_explicit_arity_witness :
  (@UseClass.build Demo.dependenciesOf Demo.dependencyCount Demo.JsValue nat
     (UseClass.withDependencies (UseClass.new Demo.C) [Demo.A])
     (UseClass.MkBuildOptions true) []).1.1
  = inl (UseClass.missing_dependencies Demo.C) /\
  (@UseClass.build Demo.dependenciesOf Demo.dependencyCount Demo.JsValue nat
     (UseClass.withDependencies (UseClass.new Demo.B) [Demo.A; Demo.Mailer])
     (UseClass.MkBuildOptions true) []).1.1
  = inr (ClassServiceData Demo.B [Demo.A; Demo.Mailer] false).
Proof.
  split.
  - apply (proj1 (build_explicit_arity (Value := Demo.JsValue)
                    (FactoryFn := nat) Demo.dependenciesOf
                    Demo.dependencyCount (UseClass.new Demo.C) [Demo.A]
                    (UseClass.MkBuildOptions true) [])).
    vm_compute. reflexivity.
  - apply (proj1 (proj2 (build_explicit_arity (Value := Demo.JsValue)
                    (FactoryFn := nat) Demo.dependenciesOf
                    Demo.dependencyCount (UseClass.new Demo.B)
                    [Demo.A; Demo.Mailer] (UseClass.MkBuildOptions true) []))).
    vm_compute. discriminate.
Defined.

Lemma build_queries_provider_witness :
  exists calls,
    (@UseClass.build Demo.dependenciesOf Demo.dependencyCount Demo.JsValue nat
       (UseClass.new Demo.C) (UseClass.MkBuildOptions true) []).2 = [] ++ calls
    /\ UseClass.CallGetDependencies Demo.C ∈ calls.
Proof.
  destruct (build_queries_provider (Value := Demo.JsValue) (FactoryFn := nat)
              Demo.dependenciesOf Demo.dependencyCount (UseClass.new Demo.C)
              (UseClass.MkBuildOptions true) [])
    as (calls & Hlog & Hasked & _).
  exists calls. split; [exact Hlog|].
  apply Hasked. split; reflexivity.
Defined.

Lemma build_unconfigured_without_autowire_witness :
  (0 < Demo.dependencyCount Demo.C)%Z /\
  @UseClass.build Demo.dependenciesOf Demo.dependencyCount Demo.JsValue nat
    (UseClass.new Demo.C) (UseClass.MkBuildOptions false) []
  = (inl (UseClass.missing_dependencies Demo.C), UseClass.new Demo.C,
     [] ++ [UseClass.CallGetDependencyCount Demo.C]).
Proof.
  assert (H : (0 < Demo.dependencyCount Demo.C)%Z) by reflexivity.
  split; [exact H|].
  exact (build_unconfigured_without_autowire (Value := Demo.JsValue)
           (FactoryFn := nat) Demo.dependenciesOf Demo.dependencyCount
           Demo.C [] H).
Defined.

Lemma demo_cyclic_loop : exists x, tc (class_edge Demo.cyclic_services) x x.
Proof.
  exists Demo.A. apply (tc_l _ _ Demo.B).
  - unfold class_edge.
    replace (Builder.class_dependencies Demo.cyclic_services Demo.A)
      with [Demo.B] by (vm_compute; reflexivity).
    apply list_elem_of_here.
  - apply tc_once. unfold class_edge.
    replace (Builder.class_dependencies Demo.cyclic_services Demo.B)
      with [Demo.A] by (vm_compute; reflexivity).
    apply list_elem_of_here.
Qed.

Lemma build_rejects_cycles_witness :
  Builder.finalize Demo.dependenciesOf Demo.dependencyCount
    (UseClass.MkBuildOptions true) (map_to_list Demo.cyclic_registry) ∅ []
  = (inr Demo.cyclic_services,
     [UseClass.CallGetDependencyCount Demo.A;
      UseClass.CallGetDependencyCount Demo.B]) /\
  (exists x, tc (class_edge Demo.cyclic_services) x x) /\
  exists errors cycle,
    Builder.build Demo.dependenciesOf Demo.dependencyCount
      (UseClass.MkBuildOptions true) Demo.cyclic_registry []
    = (Some (Builder.Failed errors),
       [UseClass.CallGetDependencyCount Demo.A;
        UseClass.CallGetDependencyCount Demo.B])
    /\ Builder.CircularDependency cycle ∈ errors
    /\ is_cycle (class_edge Demo.cyclic_services) cycle.
Proof.
  assert (H : Builder.finalize Demo.dependenciesOf Demo.dependencyCount
                (UseClass.MkBuildOptions true)
                (map_to_list Demo.cyclic_registry) ∅ []
              = (inr Demo.cyclic_services,
                 [UseClass.CallGetDependencyCount Demo.A;
                  UseClass.CallGetDependencyCount Demo.B]))
    by (vm_compute; reflexivity).
  split; [exact H|]. split; [exact demo_cyclic_loop|].
  exact (build_rejects_cycles Demo.dependenciesOf Demo.dependencyCount
           _ _ _ _ _ H demo_cyclic_loop).
Defined.

Lemma build_rejects_unregistered_witness :
  Builder.finalize Demo.dependenciesOf Demo.dependencyCount
    (UseClass.MkBuildOptions true) (map_to_list Demo.dangling_registry) ∅ []
  = (inr Demo.dangling_services, [UseClass.CallGetDependencyCount Demo.A]) /\
  Demo.dangling_services !! Demo.A
    = Some (ClassServiceData Demo.A [Demo.B] false) /\
  Demo.B ∈ [Demo.B] /\
  Demo.dangling_registry !! Demo.B = None /\
  exists errors,
    Builder.build Demo.dependenciesOf Demo.dependencyCount
      (UseClass.MkBuildOptions true) Demo.dangling_registry []
    = (Some (Builder.Failed errors), [UseClass.CallGetDependencyCount Demo.A])
    /\ Builder.UnregisteredDependency Demo.A Demo.B ∈ errors.
Proof.
  assert (H : Builder.finalize Demo.dependenciesOf Demo.dependencyCount
                (UseClass.MkBuildOptions true)
                (map_to_list Demo.dangling_registry) ∅ []
              = (inr Demo.dangling_services,
                 [UseClass.CallGetDependencyCount Demo.A]))
    by (vm_compute; reflexivity).
  assert (HA : Demo.dangling_services !! Demo.A
               = Some (ClassServiceData Demo.A [Demo.B] false))
    by (vm_compute; reflexivity).
  assert (HB : Demo.dangling_registry !! Demo.B = None)
    by (vm_compute; reflexivity).
  split; [exact H|]. split; [exact HA|].
  split; [apply list_elem_of_here|]. split; [exact HB|].
  exact (build_rejects_unregistered Demo.dependenciesOf Demo.dependencyCount
           _ _ _ _ _ _ _ _ _ _ H HA (list_elem_of_here _ _) HB).
Defined.

(** ** More on the container *)

Section ContainerResolution.

Context {Value World FactoryFn : Type}.
Variable construct : Newable -> list Value -> World -> Completion World Value.
Variable invoke : FactoryFn -> World -> Completion World Value.

Local Abbreviation get := (Container.get construct invoke).
Local Abbreviation getDependencies := (Container.getDependencies construct invoke).
Local Abbreviation loop := Container.getDependencies_loop.

Implicit Types (this : Container.t Value FactoryFn) (w : World)
  (data : ServiceData Value FactoryFn) (ids : list Identifier)
  (id d : Identifier) (vs acc : list Value)
  (g : Identifier -> World -> option (Completion World Value)).

Lemma loop_ext g1 g2 ids :
  (forall d w, d ∈ ids -> g1 d w = g2 d w) ->
  forall acc w, loop g1 ids acc w = loop g2 ids acc w.
Proof.
  induction ids as [|d ids IH]; intros Hg acc w; simpl; [done|].
  rewrite <- (Hg d w (list_elem_of_here _ _)).
  destruct (g1 d w) as [[v w1|e w1]|]; try done.
  apply IH. intros d' w' Hd'. apply Hg. by apply list_elem_of_further.
Qed.

(** X1: when the identifiers listed before [d] resolve and the call on [d]
    throws, [get] throws that very error in the world that call left,
    whatever the type of the entry and whatever is listed after [d]: the
    rest is not resolved and nothing is constructed or called. *)
Theorem get_stops_at_first_failure this id data before d after fuel w vs w1 e w2 :
  Container.services this !! id = Some data ->
  sd_dependencies data = before ++ d :: after ->
  resolves_in_order (get fuel this) before w vs w1 ->
  get fuel this d w1 = Some (Thrown e w2) ->
  get (S fuel) this id w = Some (Thrown e w2).
Proof.
  intros Hid Hsplit Hres Hd.
  rewrite get_unfold, (find_registered _ _ _ Hid).
  unfold Container.getDependencies. rewrite Hsplit.
  rewrite (loop_after_resolved _ _ _ _ _ _ _ Hres). simpl. by rewrite Hd.
Qed.

(** X2: [get] on an identifier reads only the entries that can be reached
    from it along the [dependencies] arrays: two containers that agree on
    them give the same completion, and binding an identifier that is not
    reached changes nothing. *)
Theorem get_reads_reachable_only this id :
  (forall this2,
     (forall x, rtc (depends_on this) id x ->
        Container.services this2 !! x = Container.services this !! x) ->
     forall fuel w, get fuel this2 id w = get fuel this id w) /\
  (forall k data,
     ~ rtc (depends_on this) id k ->
     forall fuel w,
       get fuel (Container.MkContainer (<[k := data]> (Container.services this)))
         id w
       = get fuel this id w).
Proof.
  assert (Hgen : forall this2 fuel id',
            (forall x, rtc (depends_on this) id' x ->
               Container.services this2 !! x = Container.services this !! x) ->
            forall w, get fuel this2 id' w = get fuel this id' w).
  { intros this2. induction fuel as [|fuel IH]; intros id' Hagree w; [done|].
    rewrite !get_unfold. unfold Container.findServiceDataOrThrow.
    rewrite (Hagree id' (rtc_refl _ _)).
    destruct (Container.services this !! id') as [data|] eqn:Hid; [|done].
    unfold Container.getDependencies.
    rewrite (loop_ext (get fuel this2) (get fuel this) (sd_dependencies data));
      [done|].
    intros d w' Hd. apply IH. intros x Hx. apply Hagree.
    eapply rtc_l; [|exact Hx]. by exists data. }
  split.
  - intros this2 Hagree fuel w. by apply Hgen.
  - intros k data Hk fuel w. apply Hgen. intros x Hx. simpl.
    apply lookup_insert_ne. by intros ->.
Qed.

(** X3: on a container without cycles in which every listed identifier is
    registered, a call of [get] on a registered identifier returns a value
    whenever no constructor and no factory throws. *)
Theorem get_returns_when_host_returns this :
  acyclic this -> all_registered this ->
  (forall class args w e w', construct class args w <> Thrown e w') ->
  (forall factory w e w', invoke factory w <> Thrown e w') ->
  forall id, is_Some (Container.services this !! id) ->
  forall fuel w, size (Container.services this) < fuel ->
    exists v w', get fuel this id w = Some (Returned v w').
Proof.
  intros Hacyc Hall Hconstruct Hinvoke id Hid fuel w Hfuel.
  destruct (get_finishes construct invoke this Hacyc id w) as [r Hr].
  specialize (Hr fuel Hfuel). destruct r as [v w'|e w']; [by eauto|].
  destruct (get_throws_from_host construct invoke this Hall fuel id w e w'
              Hid Hr) as [(class & args & w0 & H)|(factory & w0 & H)].
  - by destruct (Hconstruct class args w0 e w').
  - by destruct (Hinvoke factory w0 e w').
Qed.

Lemma first_dependency_functional this a b c :
  first_dependency this a b -> first_dependency this a c -> b = c.
Proof. intros (data & Ha & Hb) (data' & Ha' & Hc). congruence. Qed.

Lemma first_dependency_cycle_step this a b :
  tc (first_dependency this) a a -> first_dependency this a b ->
  tc (first_dependency this) b b.
Proof.
  intros Hloop Hab.
  inversion Hloop as [? ? Hstep|? b' ? Hstep Hrest]; subst.
  - rewrite (first_dependency_functional _ _ _ _ Hab Hstep). by apply tc_once.
  - rewrite (first_dependency_functional _ _ _ _ Hab Hstep).
    rewrite (first_dependency_functional _ _ _ _ Hab Hstep) in Hab.
    by eapply tc_r.
Qed.

(** X4: when following the first listed dependency from an identifier leads
    back to it, [get] on that identifier completes at no recursion depth: it
    neither returns nor throws one of its own errors. *)
Theorem get_never_completes_on_cycle this id :
  tc (first_dependency this) id id ->
  forall fuel w, get fuel this id w = None.
Proof.
  intros Hloop fuel. revert id Hloop.
  induction fuel as [|fuel IH]; intros id Hloop w; [done|].
  assert (Hstep : exists b, first_dependency this id b).
  { inversion Hloop; subst; eauto. }
  destruct Hstep as [b Hb].
  assert (Hb' := Hb). destruct Hb' as (data & Hid & Hhead).
  rewrite get_unfold, (find_registered _ _ _ Hid).
  unfold Container.getDependencies.
  destruct (sd_dependencies data) as [|d rest]; [done|].
  injection Hhead as ->. simpl.
  by rewrite (IH b (first_dependency_cycle_step _ _ _ Hloop Hb)).
Qed.

(** X5: resolving a list made of two parts is resolving the first part, then
    the second in the world the first left, and the results are those of the
    first part followed by those of the second; a failure of the first part
    ends the resolution. *)
Theorem getDependencies_app fuel this ids1 ids2 w :
  getDependencies fuel this (ids1 ++ ids2) w =
  match getDependencies fuel this ids1 w with
  | Some (Returned vs1 w1) =>
      match getDependencies fuel this ids2 w1 with
      | Some (Returned vs2 w2) => Some (Returned (vs1 ++ vs2) w2)
      | other => other
      end
  | other => other
  end.
Proof.
  unfold Container.getDependencies. revert w.
  induction ids1 as [|d ids1 IH]; intros w.
  - simpl. by destruct (loop (get fuel this) ids2 [] w) as [[vs2 w2|e w2]|].
  - rewrite <- app_comm_cons, !loop_cons.
    destruct (get fuel this d w) as [[v w1|e w1]|]; try done.
    rewrite IH.
    destruct (loop (get fuel this) ids1 [] w1) as [[vs1 w2|e w2]|]; try done.
    by destruct (loop (get fuel this) ids2 [] w2) as [[vs2 w3|e w3]|].
Qed.

End ContainerResolution.

(** ** More on the by-class registration *)

Section UseClassBuilds.

Context {Value FactoryFn : Type}.
Variable dependenciesOf : Newable -> list Identifier.
Variable dependencyCount : Newable -> Z.

Local Abbreviation build :=
  (@UseClass.build dependenciesOf dependencyCount Value FactoryFn).

Implicit Types (this : UseClass.t) (options : UseClass.BuildOptions)
  (log : list UseClass.ProviderCall).

(** X6: whatever the state of the object, [build] throws exactly when the
    build option or the flag of the object rules auto-wiring out and the
    stored list is shorter than the parameter count; the error is then the
    missing-dependencies error for the class, and the object is left as it
    was. *)
Theorem build_throws_iff this options log :
  ((exists e, (build this options log).1.1 = inl e) <->
   UseClass.options_autowire options && UseClass.autowire this = false
   /\ (Z.of_nat (length (UseClass.dependencies this))
       < dependencyCount (UseClass.newable this))%Z) /\
  (forall e, (build this options log).1.1 = inl e ->
     e = UseClass.missing_dependencies (UseClass.newable this)
     /\ (build this options log).1.2 = this).
Proof.
  destruct (options_autowire_and this options) eqn:Hauto;
    unfold options_autowire_and in Hauto; rewrite Hauto.
  - rewrite (build_autowired _ _ _ _ _ Hauto). simpl. split.
    + split; [by intros [e ?]|by intros [? _]].
    + by intros e.
  - rewrite (build_not_autowired _ _ _ _ _ Hauto).
    destruct (_ >? _)%Z eqn:Hgt; simpl.
    + apply Z.gtb_lt in Hgt. split.
      * split; [done|]. intros _. by eexists.
      * by intros e [= <-].
    + assert (~ (Z.of_nat (length (UseClass.dependencies this))
                  < dependencyCount (UseClass.newable this))%Z).
      { intros Hlt%Z.gtb_lt. congruence. }
      split.
      * split; [by intros [e ?]|by intros [_ ?]].
      * by intros e.
Qed.

(** X7: a strategy that [build] returns is of type class, for the class of
    the object, with the flag of the object and the list the object holds
    after the call; [build] changes neither the class nor the flag, makes
    one call to the provider, and without auto-wiring keeps the list, which
    then has at least as many entries as the class has parameters. *)
Theorem build_returns_consistent this options log data this' log' :
  build this options log = (inr data, this', log') ->
  data = ClassServiceData (UseClass.newable this)
           (UseClass.dependencies this') (UseClass.autowire this)
  /\ UseClass.newable this' = UseClass.newable this
  /\ UseClass.autowire this' = UseClass.autowire this
  /\ (exists call, log' = log ++ [call])
  /\ (UseClass.options_autowire options && UseClass.autowire this = true ->
      UseClass.dependencies this' = dependenciesOf (UseClass.newable this))
  /\ (UseClass.options_autowire options && UseClass.autowire this = false ->
      this' = this
      /\ (dependencyCount (UseClass.newable this)
          <= Z.of_nat (length (UseClass.dependencies this')))%Z).
Proof.
  destruct (options_autowire_and this options) eqn:Hauto;
    unfold options_autowire_and in Hauto; rewrite Hauto.
  - rewrite (build_autowired _ _ _ _ _ Hauto). intros [= <- <- <-]. simpl.
    repeat split; try done. by eexists.
  - rewrite (build_not_autowired _ _ _ _ _ Hauto).
    destruct (_ >? _)%Z eqn:Hgt; [done|]. intros [= <- <- <-].
    repeat split; try done; [by eexists|].
    destruct (Z.gtb_spec (dependencyCount (UseClass.newable this))
                (Z.of_nat (length (UseClass.dependencies this))));
      [done|lia].
Qed.

(** X8: building the same object again with the same options gives the same
    outcome and leaves the object as the first build left it. *)
Theorem build_twice this options log log2 :
  (build (build this options log).1.2 options log2).1
  = (build this options log).1.
Proof.
  destruct (options_autowire_and this options) eqn:Hauto.
  - rewrite (build_autowired _ _ _ _ _ Hauto). simpl.
    by rewrite build_autowired.
  - rewrite (build_not_autowired _ _ _ _ _ Hauto).
    destruct (_ >? _)%Z eqn:Hgt; simpl;
      by rewrite (build_not_autowired _ _ _ _ _ Hauto), Hgt.
Qed.

(** X9: an auto-wired build stores the answer of the provider in the object;
    a later build of the same object with the [autowire] option false checks
    and returns that list, not the one the object held before. *)
Theorem build_keeps_autowired_list this log log2 :
  UseClass.autowire this = true ->
  (build (build this (UseClass.MkBuildOptions true) log).1.2
     (UseClass.MkBuildOptions false) log2).1.1
  = if (dependencyCount (UseClass.newable this)
          >? Z.of_nat (length (dependenciesOf (UseClass.newable this))))%Z
    then inl (UseClass.missing_dependencies (UseClass.newable this))
    else inr (ClassServiceData (UseClass.newable this)
                (dependenciesOf (UseClass.newable this)) true).
Proof.
  intros Hflag.
  rewrite (build_autowired _ _ this (UseClass.MkBuildOptions true) log)
    by (unfold options_autowire_and; by rewrite Hflag).
  rewrite build_not_autowired by done. simpl.
  destruct (_ >? _)%Z; by rewrite ?Hflag.
Qed.

End UseClassBuilds.

(** ** Where the values come from *)

Section ContainerValues.

Context {Value World FactoryFn : Type}.
Variable construct : Newable -> list Value -> World -> Completion World Value.
Variable invoke : FactoryFn -> World -> Completion World Value.

Local Abbreviation get := (Container.get construct invoke).

(** X10: a value returned by [get] for a registered identifier is, by the
    type of its entry, what the constructor of the class returned when given
    as many arguments as the entry lists dependencies, the stored instance,
    or what the factory returned; the world is the one that call left. *)
Theorem get_value_origin (this : Container.t Value FactoryFn) id data fuel w v w' :
  Container.services this !! id = Some data ->
  get fuel this id w = Some (Returned v w') ->
  match data with
  | ClassServiceData class dependencies _ =>
      exists args w0, length args = length dependencies
                      /\ construct class args w0 = Returned v w'
  | InstanceServiceData instance _ => v = instance
  | FactoryServiceData factory _ => exists w0, invoke factory w0 = Returned v w'
  end.
Proof.
  intros Hid. destruct fuel as [|fuel]; [done|].
  rewrite get_unfold, (find_registered _ _ _ Hid).
  unfold Container.getDependencies.
  destruct (Container.getDependencies_loop _ _ _ _) as [[vs w1|e w1]|] eqn:Hl;
    [|done|done].
  intros [= Hr]. destruct data as [class deps aw|instance deps|factory deps];
    simpl in *.
  - exists vs, w1. split; [|done].
    apply loop_in_order, resolves_positions in Hl. by destruct Hl.
  - by injection Hr as <- _.
  - by exists w1.
Qed.

End ContainerValues.

(** ** The further properties at work on the small host *)

Lemma demo_chain_all_registered : all_registered Demo.chain_container.
Proof.
  intros a data d Ha Hd. simpl in Ha. unfold Demo.chain_services in Ha.
  rewrite !lookup_insert_Some, lookup_empty in Ha.
  destruct Ha as [[<- <-]|[_ [[<- <-]|[_ [[<- <-]|[_ [[<- <-]|[_ ?]]]]]]]];
    simpl in Hd; try done.
  - by apply not_elem_of_nil in Hd.
  - apply list_elem_of_singleton in Hd as ->. by eexists.
  - apply elem_of_cons in Hd as [->|Hd]; [by eexists|].
    apply list_elem_of_singleton in Hd as ->. by eexists.
  - by apply not_elem_of_nil in Hd.
Qed.

Lemma demo_chain_reach a x :
  rtc (depends_on Demo.chain_container) a x ->
  Pos.to_nat (ident_ref x) <= Pos.to_nat (ident_ref a).
Proof.
  induction 1 as [|a b c Hab _ IH]; [done|].
  apply demo_chain_edges in Hab. lia.
Qed.

Lemma demo_first_cycle :
  tc (first_dependency Cases.cyclic_container) Demo.A Demo.A.
Proof.
  apply (tc_l _ _ Demo.B).
  - exists (ClassServiceData Demo.A [Demo.B] false).
    split; [vm_compute; reflexivity|reflexivity].
  - apply tc_once. exists (ClassServiceData Demo.B [Demo.A] false).
    split; [vm_compute; reflexivity|reflexivity].
Qed.

Lemma get_stops_at_first_failure_witness :
  Container.services Demo.odd_container !! Demo.C
    = Some (FactoryServiceData 0%nat [Demo.Mailer; Demo.B]) /\
  resolves_in_order
    (Container.get Demo.construct Demo.invoke 1 Demo.odd_container)
    [Demo.Mailer] 0%nat [Demo.Num 7] 0%nat /\
  Container.get Demo.construct Demo.invoke 1 Demo.odd_container Demo.B 0%nat
    = Some (Thrown (Container.not_registered Demo.B) 0%nat) /\
  Container.get Demo.construct Demo.invoke 2 Demo.odd_container Demo.C 0%nat
    = Some (Thrown (Container.not_registered Demo.B) 0%nat).
Proof.
  assert (Hid : Container.services Demo.odd_container !! Demo.C
                = Some (FactoryServiceData 0%nat [Demo.Mailer; Demo.B]))
    by (vm_compute; reflexivity).
  assert (Hres : resolves_in_order
                   (Container.get Demo.construct Demo.invoke 1
                      Demo.odd_container)
                   [Demo.Mailer] 0%nat [Demo.Num 7] 0%nat).
  { apply (resolves_cons _ _ _ _ _ 0%nat); [vm_compute; reflexivity|].
    apply resolves_nil. }
  assert (Hd : Container.get Demo.construct Demo.invoke 1 Demo.odd_container
                 Demo.B 0%nat
               = Some (Thrown (Container.not_registered Demo.B) 0%nat))
    by (vm_compute; reflexivity).
  split; [exact Hid|]. split; [exact Hres|]. split; [exact Hd|].
  exact (get_stops_at_first_failure Demo.construct Demo.invoke
           Demo.odd_container Demo.C _ [Demo.Mailer] Demo.B [] 1 0%nat _ _ _ _
           Hid eq_refl Hres Hd).
Defined.

Lemma get_reads_reachable_only_witness :
  ~ rtc (depends_on Demo.chain_container) Demo.C Demo.Clock /\
  Container.get Demo.construct Demo.invoke 3 Cases.extended_container
    Demo.C 0%nat
  = Container.get Demo.construct Demo.invoke 3 Demo.chain_container
      Demo.C 0%nat.
Proof.
  assert (Hfar : ~ rtc (depends_on Demo.chain_container) Demo.C Demo.Clock).
  { intros Hreach%demo_chain_reach. simpl in Hreach. lia. }
  split; [exact Hfar|].
  exact (proj2 (get_reads_reachable_only Demo.construct Demo.invoke
                  Demo.chain_container Demo.C)
           Demo.Clock (FactoryServiceData 0%nat []) Hfar 3 0%nat).
Defined.

Lemma get_returns_when_host_returns_witness :
  acyclic Demo.chain_container /\ all_registered Demo.chain_container /\
  is_Some (Container.services Demo.chain_container !! Demo.C) /\
  exists v w',
    Container.get Demo.construct Demo.invoke 5 Demo.chain_container Demo.C 0%nat
    = Some (Returned v w').
Proof.
  assert (Hid : is_Some (Container.services Demo.chain_container !! Demo.C)).
  { exists (ClassServiceData Demo.C [Demo.B; Demo.A] false).
    vm_compute. reflexivity. }
  split; [exact demo_chain_acyclic|].
  split; [exact demo_chain_all_registered|]. split; [exact Hid|].
  apply (get_returns_when_host_returns Demo.construct Demo.invoke
           Demo.chain_container demo_chain_acyclic demo_chain_all_registered).
  - intros class args w e w'. discriminate.
  - intros factory w e w'. discriminate.
  - exact Hid.
  - vm_compute. lia.
Defined.

Lemma get_never_completes_on_cycle_witness :
  tc (first_dependency Cases.cyclic_container) Demo.A Demo.A /\
  Container.get Demo.construct Demo.invoke 100 Cases.cyclic_container
    Demo.A 0%nat = None.
Proof.
  split; [exact demo_first_cycle|].
  exact (get_never_completes_on_cycle Demo.construct Demo.invoke
           Cases.cyclic_container Demo.A demo_first_cycle 100 0%nat).
Defined.

Lemma get_value_origin_witness :
  Container.services Demo.chain_container !! Demo.B
    = Some (ClassServiceData Demo.B [Demo.A] true) /\
  Container.get Demo.construct Demo.invoke 2 Demo.chain_container Demo.B 0%nat
    = Some (Returned (Demo.Obj 1 Demo.B [Demo.Obj 0 Demo.A []]) 2%nat) /\
  exists args w0,
    length args = length [Demo.A]
    /\ Demo.construct Demo.B args w0
       = Returned (Demo.Obj 1 Demo.B [Demo.Obj 0 Demo.A []]) 2%nat.
Proof.
  assert (Hid : Container.services Demo.chain_container !! Demo.B
                = Some (ClassServiceData Demo.B [Demo.A] true))
    by (vm_compute; reflexivity).
  assert (Hget : Container.get Demo.construct Demo.invoke 2
                   Demo.chain_container Demo.B 0%nat
                 = Some (Returned (Demo.Obj 1 Demo.B [Demo.Obj 0 Demo.A []])
                           2%nat))
    by (vm_compute; reflexivity).
  split; [exact Hid|]. split; [exact Hget|].
  exact (get_value_origin Demo.construct Demo.invoke Demo.chain_container
           Demo.B _ 2 0%nat _ _ Hid Hget).
Defined.

Lemma build_returns_consistent_witness :
  @UseClass.build Demo.dependenciesOf Demo.dependencyCount Demo.JsValue nat
    (UseClass.withDependencies (UseClass.new Demo.B) [Demo.A; Demo.Mailer])
    (UseClass.MkBuildOptions true) []
  = (inr (ClassServiceData Demo.B [Demo.A; Demo.Mailer] false),
     UseClass.MkUseClass Demo.B [Demo.A; Demo.Mailer] false,
     [UseClass.CallGetDependencyCount Demo.B]) /\
  (Demo.dependencyCount Demo.B <= Z.of_nat (length [Demo.A; Demo.Mailer]))%Z.
Proof.
  assert (H : @UseClass.build Demo.dependenciesOf Demo.dependencyCount
                Demo.JsValue nat
                (UseClass.withDependencies (UseClass.new Demo.B)
                   [Demo.A; Demo.Mailer])
                (UseClass.MkBuildOptions true) []
              = (inr (ClassServiceData Demo.B [Demo.A; Demo.Mailer] false),
                 UseClass.MkUseClass Demo.B [Demo.A; Demo.Mailer] false,
                 [UseClass.CallGetDependencyCount Demo.B]))
    by reflexivity.
  split; [exact H|].
  destruct (build_returns_consistent Demo.dependenciesOf Demo.dependencyCount
              _ _ _ _ _ _ H) as (_ & _ & _ & _ & _ & Hkept).
  exact (proj2 (Hkept eq_refl)).
Defined.

Lemma build_keeps_autowired_list_witness :
  UseClass.autowire (UseClass.new Demo.C) = true /\
  (@UseClass.build Demo.dependenciesOf Demo.dependencyCount Demo.JsValue nat
     (@UseClass.build Demo.dependenciesOf Demo.dependencyCount Demo.JsValue nat
        (UseClass.new Demo.C) (UseClass.MkBuildOptions true) []).1.2
     (UseClass.MkBuildOptions false) []).1.1
  = inr (ClassServiceData Demo.C [Demo.B; Demo.A] true).
Proof.
  split; [reflexivity|].
  exact (build_keeps_autowired_list (Value := Demo.JsValue) (FactoryFn := nat)
           Demo.dependenciesOf Demo.dependencyCount (UseClass.new Demo.C)
           [] [] eq_refl).
Defined.
